(** * NZ Lotto simulator: scoring core, ticket parser and tally ledger

    A shallow embedding of [CODE_BASE.py] and the properties its design
    document states about it.

    Conventions of the embedding.
    - Python [int] is [Z]; list indices and counts are [nat].
    - Python [str] is a list of characters.  The ticket text is taken over
      the ASCII range: white space, line breaks, digits and upper-casing are
      the ASCII parts of the corresponding Python methods.
    - Money is kept exactly, in cents: every constant of the program
      (0.70, 1.50, 1.00, 2.80, 17.80, ...) is a whole number of cents.  The
      program itself accumulates binary floating point numbers.
    - The dictionaries [stats] and [paid] are finite maps from the prize
      code to the value held by the Tk variable stored under it.
    - An operation that can raise ([KeyError], [IndexError]) returns
      [option]; [None] stands for the exception.
    - [SystemRandom] is an oracle: each call is answered by a function of
      the number of calls made before it, and the application state counts
      the calls that were made.
    - The Tk main loop is a list of events: button presses, timer ticks,
      edits of the ticket text and changes of the controls, each handled to
      completion before the next. *)

From Stdlib Require Import ZArith Ascii String List Permutation Lia.
From stdpp Require Import base tactics option list gmap strings pretty sorting.

Open Scope Z_scope.

(** ** Python strings *)

Abbreviation str := (list ascii).

Definition lit (s : string) : str := list_ascii_of_string s.

Module Py.

(** [str.isspace] on one ASCII character: tab, line feed, vertical tab,
    form feed, carriage return, the four separators 0x1c-0x1f, space. *)
Definition isspace (c : ascii) : bool :=
  match c with
  | "009" | "010" | "011" | "012" | "013"
  | "028" | "029" | "030" | "031" | " " => true
  | _ => false
  end%char.

(** Line boundaries of [str.splitlines] in the ASCII range. *)
Definition islinebreak (c : ascii) : bool :=
  match c with
  | "010" | "011" | "012" | "013" | "028" | "029" | "030" => true
  | _ => false
  end%char.

(** The value of a decimal digit, "0" (48) to "9" (57). *)
Definition isdigit (c : ascii) : option Z :=
  let n := nat_of_ascii c in
  if (48 <=? n)%nat && (n <=? 57)%nat then Some (Z.of_nat (n - 48)) else None.

Fixpoint lstrip (s : str) : str :=
  match s with
  | c :: r => if isspace c then lstrip r else s
  | [] => []
  end.

Definition rstrip (s : str) : str := rev (lstrip (rev s)).

(** [s.strip()] *)
Definition strip (s : str) : str := rstrip (lstrip s).

(** [s.splitlines()]: [skip_lf] is set right after a carriage return, so
    that "\r\n" is one boundary; the last line needs no terminator and an
    empty tail gives no line. *)
Fixpoint splitlines_go (skip_lf : bool) (cur : str) (s : str) : list str :=
  match s with
  | [] => match cur with [] => [] | _ => [cur] end
  | c :: r =>
      if skip_lf && Ascii.eqb c "010" then splitlines_go false cur r
      else if islinebreak c
           then cur :: splitlines_go (Ascii.eqb c "013") [] r
           else splitlines_go false (cur ++ [c]) r
  end.

Definition splitlines (s : str) : list str := splitlines_go false [] s.

(** [s.startswith(p)] *)
Fixpoint startswith (p s : str) : bool :=
  match p, s with
  | [], _ => true
  | a :: p', b :: s' => Ascii.eqb a b && startswith p' s'
  | _ :: _, [] => false
  end.

(** [s.split(sep, 1)[0]] for a one-character separator. *)
Fixpoint before (sep : ascii) (s : str) : str :=
  match s with
  | [] => []
  | c :: r => if Ascii.eqb c sep then [] else c :: before sep r
  end.

(** [s.split(sep, 1)[1]] for a one-character separator; [None] is the
    [IndexError] raised when the separator does not occur. *)
Fixpoint after (sep : ascii) (s : str) : option str :=
  match s with
  | [] => None
  | c :: r => if Ascii.eqb c sep then Some r else after sep r
  end.

(** [s.replace(a, b)] for one-character [a] and [b]. *)
Definition replace (a b : ascii) (s : str) : str :=
  map (fun c => if Ascii.eqb c a then b else c) s.

(** [s.split()]: maximal runs of characters that are not white space. *)
Fixpoint split_go (cur : str) (s : str) : list str :=
  match s with
  | [] => match cur with [] => [] | _ => [cur] end
  | c :: r =>
      if isspace c
      then match cur with [] => split_go [] r | _ => cur :: split_go [] r end
      else split_go (cur ++ [c]) r
  end.

Definition split (s : str) : list str := split_go [] s.

Definition upper_char (c : ascii) : ascii :=
  let n := nat_of_ascii c in
  if (97 <=? n)%nat && (n <=? 122)%nat then ascii_of_nat (n - 32) else c.

(** [s.upper()] *)
Definition upper (s : str) : str := map upper_char s.

(** [c in s] for a character [c]. *)
Definition contains (c : ascii) (s : str) : bool :=
  existsb (Ascii.eqb c) s.

(** The digits of a decimal literal: single underscores are allowed
    between digits only. *)
Fixpoint digits_go (acc : Z) (after_digit : bool) (s : str) : option Z :=
  match s with
  | [] => if after_digit then Some acc else None
  | c :: r =>
      match isdigit c with
      | Some d => digits_go (10 * acc + d) true r
      | None =>
          if Ascii.eqb c "_" && after_digit then digits_go acc false r
          else None
      end
  end.

(** [int(s)] in base 10: optional sign, then digits; [None] is
    [ValueError].  The interpreter's limit on the number of digits of a
    literal is not modelled. *)
Definition int (s : str) : option Z :=
  match strip s with
  | "+"%char :: r => digits_go 0 false r
  | "-"%char :: r => Z.opp <$> digits_go 0 false r
  | r => digits_go 0 false r
  end.

(** [sep.join(parts)] *)
Fixpoint join (sep : str) (parts : list str) : str :=
  match parts with
  | [] => []
  | [p] => p
  | p :: rest => p ++ sep ++ join sep rest
  end.

(** [l[i]] with Python's negative indices; [None] is [IndexError]. *)
Definition index {A} (l : list A) (i : Z) : option A :=
  if 0 <=? i then l !! Z.to_nat i
  else if 0 <=? Z.of_nat (length l) + i
       then l !! Z.to_nat (Z.of_nat (length l) + i)
       else None.

(** [itertools.combinations(l, k)], in the order of the positions. *)
Fixpoint combinations {A} (k : nat) (l : list A) : list (list A) :=
  match k with
  | O => [[]]
  | S k' =>
      match l with
      | [] => []
      | x :: r => map (cons x) (combinations k' r) ++ combinations k r
      end
  end.

End Py.

(** ** Constants *)

Definition COST_LOTTO_ONLY : Z := 70.
Definition COST_LOTTO_PB : Z := 150.
Definition COST_STRIKE : Z := 100.

Definition LOTTO_NO_PB : list Z :=
  [100000000; 2350000; 67400; 4800; 2600; 2100; 280].
Definition LOTTO_WITH_PB : list Z :=
  [3000000000; 3256000; 85000; 9800; 5100; 4100; 1780].

Definition STRIKE_PAYOUT : list Z := [100; 7700; 54500; 100000000].

Definition DEFAULT_SPEED : Z := 10000.

(** [f"{n:02d}"] *)
Definition z2 (n : Z) : str :=
  let s := lit (pretty n) in
  if (0 <=? n) && (n <? 10) then "0"%char :: s else s.

(** ** Ticket lines and the parser *)

Record TicketLine := { nums : list Z; pb : option Z }.

Global Instance TicketLine_eq_dec : EqDecision TicketLine.
Proof. solve_decision. Defined.

(** The [while] loop of [parse_ticket_lines] over the tokens of one line. *)
Fixpoint scan_tokens (tokens : list str) (ns : list Z) (p : option Z)
  : list Z * option Z :=
  match tokens with
  | [] => (ns, p)
  | t :: rest =>
      let tok := Py.upper t in
      let plain :=
        match Py.int tok with
        | Some val => scan_tokens rest (ns ++ [val]) p
        | None => scan_tokens rest ns p
        end in
      let marked :=
        if Py.contains "=" tok then
          match Py.after "=" tok ≫= Py.int with
          | Some v => scan_tokens rest ns (Some v)
          | None => scan_tokens rest ns p
          end
        else plain in
      if Py.startswith (lit "PB") tok then
        match bool_decide (tok = lit "PB"), rest with
        | true, t2 :: rest' =>
            match Py.int t2 with
            | Some v => scan_tokens rest' ns (Some v)
            | None => scan_tokens rest' ns p
            end
        | _, _ => marked
        end
      else plain
  end.

(** The body of the [for raw in lines] loop: the line a raw text line gives,
    if it gives one. *)
Definition parse_line (raw : str) : option TicketLine :=
  let s := Py.strip raw in
  if bool_decide (s = []) || Py.startswith (lit "#") s then None
  else
    let left := Py.before "009" s in
    let tokens := Py.split (Py.replace "," " " (Py.replace "|" " " left)) in
    let '(ns, p) := scan_tokens tokens [] None in
    let ns := take 6 (filter (fun n => 1 <= n <= 40) ns) in
    if (length ns <? 6)%nat then None
    else
      let p := match p with
               | Some v => if bool_decide (1 <= v <= 10) then Some v else None
               | None => None
               end in
      Some {| nums := ns; pb := p |}.

(** [ticket_text.get("1.0", "end")]: the widget's content followed by the
    newline a Tk text widget always ends with. *)
Definition text_get (content : str) : str := content ++ ["010"%char].

(** [parse_ticket_lines], as a function of the widget's content. *)
Definition parse_ticket_lines (content : str) : list TicketLine :=
  omap parse_line (Py.splitlines (Py.strip (text_get content))).


(** ** The tally: [stats] and [paid] *)

Record Tally := { stats : gmap string Z; paid : gmap string Z }.

Definition codes : list string :=
  ["D1"; "D2"; "D3"; "D4"; "D5"; "D6"; "D7"; "S1"; "S2"; "S3"; "S4"]%string.

(** [init_vars] *)
Definition init_vars : Tally :=
  {| stats := list_to_map ((fun k => (k, 0)) <$> codes);
     paid := list_to_map ((fun k => (k, 0)) <$> codes) |}.

(** [f"D{division}"] and [f"S{hits}"] *)
Definition code_D (division : Z) : string := "D" +:+ pretty division.
Definition code_S (hits : Z) : string := "S" +:+ pretty hits.

(** [award_lotto] *)
Definition award_lotto (division : Z) (powerball_matched : bool) (t : Tally)
  : option Tally :=
  let code := code_D division in
  amount ← Py.index (if powerball_matched then LOTTO_WITH_PB else LOTTO_NO_PB)
                    (division - 1);
  n ← stats t !! code;
  p ← paid t !! code;
  Some {| stats := <[code := n + 1]> (stats t);
          paid := <[code := p + amount]> (paid t) |}.

(** [award_strike] *)
Definition award_strike (hits : Z) (t : Tally) : option Tally :=
  let code := code_S hits in
  n ← stats t !! code;
  p ← paid t !! code;
  amount ← Py.index STRIKE_PAYOUT (hits - 1);
  Some {| stats := <[code := n + 1]> (stats t);
          paid := <[code := p + amount]> (paid t) |}.

(** ** Scoring *)

(** [sum(1 for x in nums if x in main6)] *)
Definition count_main (ns main6 : list Z) : nat :=
  length (filter (fun x => x ∈ main6) ns).

(** The [if]/[elif] chain of [score_line_against_draw]. *)
Definition division_of (m : nat) (b : bool) : option Z :=
  if (m =? 6)%nat then Some 1
  else if (m =? 5)%nat && b then Some 2
  else if (m =? 5)%nat then Some 3
  else if (m =? 4)%nat && b then Some 4
  else if (m =? 4)%nat then Some 5
  else if (m =? 3)%nat && b then Some 6
  else if (m =? 3)%nat then Some 7
  else None.

(** [line["pb"] is not None and line["pb"] == pb_draw] *)
Definition pb_matched (line : TicketLine) (pb_draw : Z) : bool :=
  match pb line with
  | Some p => bool_decide (p = pb_draw)
  | None => false
  end.

(** [sum(1 for i in range(4) if strike_guess[i] == strike_draw[i])];
    [None] is the [IndexError] of a list shorter than four. *)
Definition strike_hits (strike_guess strike_draw : list Z) : option Z :=
  foldr (fun i acc =>
           g ← strike_guess !! i;
           d ← strike_draw !! i;
           n ← acc;
           Some ((if bool_decide (g = d) then 1 else 0) + n))
        (Some 0) [0; 1; 2; 3]%nat.

Definition line_cost (line : TicketLine) (strike_on : bool) : Z :=
  (match pb line with Some _ => COST_LOTTO_PB | None => COST_LOTTO_ONLY end)
  + (if strike_on then COST_STRIKE else 0).

(** [score_line_against_draw]: the cost of the line and the tally after the
    awards. *)
Definition score_line_against_draw (line : TicketLine) (main6 : list Z)
    (bonus pb_draw : Z) (strike_on : bool) (t : Tally) : option (Z * Tally) :=
  let cost := line_cost line strike_on in
  let m := count_main (nums line) main6 in
  let b := bool_decide (bonus ∈ nums line) in
  let division := division_of m b in
  t1 ← match division with
       | Some d => award_lotto d (pb_matched line pb_draw) t
       | None => Some t
       end;
  t2 ← (if strike_on then
          hits ← strike_hits (take 4 (nums line)) (take 4 main6);
          if 1 <=? hits then award_strike hits t1 else Some t1
        else Some t1);
  Some (cost, t2).

(** ** The random source *)

(** [rng = SystemRandom()]: the answer to a call is a function of the number
    of calls made before it. *)
Record Rng := {
  shuffle : nat -> list Z -> list Z;
  sample : nat -> list Z -> nat -> list Z;
  randrange : nat -> Z -> Z -> Z
}.

(** What the library promises about the three methods. *)
Record RngLaws (rng : Rng) : Prop := {
  shuffle_perm : forall k l, Permutation (shuffle rng k l) l;
  sample_length : forall k l n,
    (n <= length l)%nat -> length (sample rng k l n) = n;
  sample_sub : forall k l n x, x ∈ sample rng k l n -> x ∈ l;
  sample_nodup : forall k l n, NoDup l -> NoDup (sample rng k l n);
  randrange_bounds : forall k a b, a < b -> a <= randrange rng k a b < b
}.

Record Draw := { main6 : list Z; bonus : Z; pb_draw : Z }.

(** [draw_lotto], called after [k] earlier calls of the random source; it
    makes two calls.  [None] is the [IndexError] of [balls[6]]. *)
Definition draw_lotto (rng : Rng) (k : nat) : option Draw :=
  let balls := shuffle rng k (seqZ 1 40) in
  b ← balls !! 6%nat;
  Some {| main6 := take 6 balls; bonus := b;
          pb_draw := randrange rng (S k) 1 11 |}.

(** ** Application state *)

Inductive Status :=
| Ready
| NoValidLines
| DrawDone (lines : nat) (cost balance : Z)
| WheelDone (m : nat) (base : list Z) (added : Z)
| QuickPicksAdded
| BaseSet (base : list Z)
| Cleared
| Paused
| ResetComplete.

(** The five labels of the "Last draw" frame. *)
Record Labels := {
  drawno_label : str;
  main_label : str;
  bonus_label : str;
  first4_label : str;
  pb_label : str
}.

Definition blank_labels : Labels :=
  {| drawno_label := []; main_label := []; bonus_label := [];
     first4_label := []; pb_label := [] |}.

(** The module's variables.  [ticket_text] is the content of the text
    widget, [running] and [after_id] are the two keys of the [state]
    dictionary (a missing ["running"] reads as false), [rng_calls] counts
    the calls made to the random source.  The labels that only repeat
    [stats], [paid], [spend] and [returns] are left out. *)
Record AppState := {
  ticket_text : str;
  tally : Tally;
  spend : Z;
  returns : Z;
  draw_number : Z;
  speed_var : Z;
  powerball_var : bool;
  strike_var : bool;
  base_numbers_var : str;
  V : list Z;
  labels : Labels;
  status_var : Status;
  running : bool;
  after_id : option Z;
  rng_calls : nat
}.

(** The state the module body builds before [root.mainloop()]. *)
Definition init_state : AppState :=
  {| ticket_text := []; tally := init_vars; spend := 0; returns := 0;
     draw_number := 0; speed_var := DEFAULT_SPEED; powerball_var := false;
     strike_var := false; base_numbers_var := []; V := [];
     labels := blank_labels; status_var := Ready; running := false;
     after_id := None; rng_calls := 0 |}.

Definition with_ticket_text (x : str) (s : AppState) : AppState :=
  {| ticket_text := x; tally := tally s; spend := spend s;
     returns := returns s; draw_number := draw_number s;
     speed_var := speed_var s; powerball_var := powerball_var s;
     strike_var := strike_var s; base_numbers_var := base_numbers_var s;
     V := V s; labels := labels s; status_var := status_var s;
     running := running s; after_id := after_id s;
     rng_calls := rng_calls s |}.

(** [set_status] *)
Definition set_status (msg : Status) (s : AppState) : AppState :=
  {| ticket_text := ticket_text s; tally := tally s; spend := spend s;
     returns := returns s; draw_number := draw_number s;
     speed_var := speed_var s; powerball_var := powerball_var s;
     strike_var := strike_var s; base_numbers_var := base_numbers_var s;
     V := V s; labels := labels s; status_var := msg;
     running := running s; after_id := after_id s;
     rng_calls := rng_calls s |}.

Definition with_rng_calls (k : nat) (s : AppState) : AppState :=
  {| ticket_text := ticket_text s; tally := tally s; spend := spend s;
     returns := returns s; draw_number := draw_number s;
     speed_var := speed_var s; powerball_var := powerball_var s;
     strike_var := strike_var s; base_numbers_var := base_numbers_var s;
     V := V s; labels := labels s; status_var := status_var s;
     running := running s; after_id := after_id s;
     rng_calls := k |}.

(** The text [add_ticket_line] inserts. *)
Definition ticket_line_text (ns : list Z) (p : option Z) (strike : bool)
  : str :=
  let left := Py.join (lit " ") (z2 <$> ns)
              ++ match p with
                 | Some v => lit " | PB " ++ z2 v
                 | None => []
                 end in
  if strike
  then left ++ ["009"%char] ++ Py.join (lit " ") (z2 <$> take 4 ns)
            ++ ["010"%char]
  else left ++ ["010"%char].

(** [add_ticket_line]: [ticket_text.insert("end", ...)] appends to the
    content. *)
Definition add_ticket_line (ns : list Z) (p : option Z) (s : AppState)
  : AppState :=
  with_ticket_text
    (ticket_text s ++ ticket_line_text ns p (strike_var s)) s.

(** [sum(v.get() for v in paid.values())] *)
Definition sum_values (m : gmap string Z) : Z :=
  map_fold (fun _ v acc => v + acc) 0 m.

(** The line number of [ticket_text.index("end")]:
    [int(float(ticket_text.index("end")))]. *)
Definition end_line (content : str) : Z :=
  Z.of_nat (length (filter (fun c => c = "010"%char) content)) + 2.

(** ** The callbacks *)

(** The [for line in lines] loop of [do_draw_once]. *)
Fixpoint score_lines (lines : list TicketLine) (d : Draw) (strike_on : bool)
    (total_cost : Z) (t : Tally) : option (Z * Tally) :=
  match lines with
  | [] => Some (total_cost, t)
  | line :: rest =>
      r ← score_line_against_draw line (main6 d) (bonus d) (pb_draw d)
            strike_on t;
      score_lines rest d strike_on (total_cost + r.1) r.2
  end.

Definition draw_labels (n : Z) (d : Draw) : Labels :=
  {| drawno_label := lit "Draw #" ++ lit (pretty n);
     main_label := lit "Main: " ++ Py.join (lit " ") (z2 <$> main6 d);
     bonus_label := lit "Bonus: " ++ z2 (bonus d);
     first4_label :=
       lit "First 4: " ++ Py.join (lit " ") (z2 <$> take 4 (main6 d));
     pb_label := lit "PB draw: " ++ z2 (pb_draw d) |}.

(** [do_draw_once]; [refresh_paid_labels] is the assignment to [returns]. *)
Definition do_draw_once (rng : Rng) (s : AppState) : option AppState :=
  let lines := parse_ticket_lines (ticket_text s) in
  match lines with
  | [] => Some (set_status NoValidLines s)
  | _ :: _ =>
      let n := draw_number s + 1 in
      d ← draw_lotto rng (rng_calls s);
      r ← score_lines lines d (strike_var s) 0 (tally s);
      let spend' := spend s + r.1 in
      let returns' := sum_values (paid r.2) in
      Some {| ticket_text := ticket_text s; tally := r.2; spend := spend';
              returns := returns'; draw_number := n;
              speed_var := speed_var s; powerball_var := powerball_var s;
              strike_var := strike_var s;
              base_numbers_var := base_numbers_var s; V := V s;
              labels := draw_labels n d;
              status_var := DrawDone (length lines) r.1 (returns' - spend');
              running := running s; after_id := after_id s;
              rng_calls := S (S (rng_calls s)) |}
  end.

(** [on_reset] *)
Definition on_reset (s : AppState) : AppState :=
  let t := {| stats := (fun _ => 0) <$> stats (tally s);
              paid := (fun _ => 0) <$> paid (tally s) |} in
  {| ticket_text := []; tally := t; spend := 0;
     returns := sum_values (paid t); draw_number := 0;
     speed_var := DEFAULT_SPEED; powerball_var := false;
     strike_var := false; base_numbers_var := []; V := [];
     labels := blank_labels; status_var := ResetComplete;
     running := false; after_id := None; rng_calls := rng_calls s |}.

(** The base [system_wheel] chooses, with the number of calls of the random
    source after the choice. *)
Definition wheel_base (rng : Rng) (m : nat) (s : AppState) : list Z * nat :=
  if bool_decide (length (V s) = m) then (V s, rng_calls s)
  else (merge_sort Z.le (sample rng (rng_calls s) (seqZ 1 40) m),
        S (rng_calls s)).

(** The body of the [for comb in combinations(base, 6)] loop. *)
Definition wheel_step (rng : Rng) (s : AppState) (comb : list Z) : AppState :=
  if powerball_var s
  then add_ticket_line comb (Some (randrange rng (rng_calls s) 1 11))
         (with_rng_calls (S (rng_calls s)) s)
  else add_ticket_line comb None s.

(** [system_wheel]; [None] is the [ValueError] of a sample larger than the
    population. *)
Definition system_wheel (rng : Rng) (m : nat) (s : AppState)
  : option AppState :=
  if bool_decide (length (V s) ≠ m ∧ (40 < m)%nat) then None
  else
    let '(base, k) := wheel_base rng m s in
    let count_before := end_line (ticket_text s) in
    let s1 := foldl (wheel_step rng) (with_rng_calls k s)
                (Py.combinations 6 base) in
    let added := end_line (ticket_text s1) - count_before in
    Some (set_status (WheelDone m base added) s1).

(** [for _ in range(batch): do_draw_once()] of [schedule_next]. *)
Fixpoint draw_cycles (rng : Rng) (n : nat) (s : AppState)
  : option AppState :=
  match n with
  | O => Some s
  | S n' => s1 ← do_draw_once rng s; draw_cycles rng n' s1
  end.

Definition with_running (b : bool) (s : AppState) : AppState :=
  {| ticket_text := ticket_text s; tally := tally s; spend := spend s;
     returns := returns s; draw_number := draw_number s;
     speed_var := speed_var s; powerball_var := powerball_var s;
     strike_var := strike_var s; base_numbers_var := base_numbers_var s;
     V := V s; labels := labels s; status_var := status_var s;
     running := b; after_id := after_id s; rng_calls := rng_calls s |}.

Definition with_after_id (a : option Z) (s : AppState) : AppState :=
  {| ticket_text := ticket_text s; tally := tally s; spend := spend s;
     returns := returns s; draw_number := draw_number s;
     speed_var := speed_var s; powerball_var := powerball_var s;
     strike_var := strike_var s; base_numbers_var := base_numbers_var s;
     V := V s; labels := labels s; status_var := status_var s;
     running := running s; after_id := a; rng_calls := rng_calls s |}.

(** The three controls of the top row, as the user sets them. *)
Definition with_controls (speed : Z) (powerball strike : bool)
    (s : AppState) : AppState :=
  {| ticket_text := ticket_text s; tally := tally s; spend := spend s;
     returns := returns s; draw_number := draw_number s;
     speed_var := speed; powerball_var := powerball;
     strike_var := strike; base_numbers_var := base_numbers_var s;
     V := V s; labels := labels s; status_var := status_var s;
     running := running s; after_id := after_id s;
     rng_calls := rng_calls s |}.

Definition with_base (v : list Z) (shown : str) (s : AppState) : AppState :=
  {| ticket_text := ticket_text s; tally := tally s; spend := spend s;
     returns := returns s; draw_number := draw_number s;
     speed_var := speed_var s; powerball_var := powerball_var s;
     strike_var := strike_var s; base_numbers_var := shown;
     V := v; labels := labels s; status_var := status_var s;
     running := running s; after_id := after_id s;
     rng_calls := rng_calls s |}.

(** [set_base_numbers], given the answer of the dialog.  A token that is
    not an integer leaves the state as it is (the error box), and so does an
    answer without a number from 1 to 40 (the warning box). *)
Definition set_base_numbers (answer : option str) (s : AppState)
  : AppState :=
  match answer with
  | None | Some [] => s
  | Some text =>
      match mapM Py.int (Py.split (Py.replace "," " " text)) with
      | None => s
      | Some ints =>
          let vals :=
            merge_sort Z.le
              (remove_dups (filter (fun n => 1 <= n <= 40) ints)) in
          match vals with
          | [] => s
          | _ :: _ =>
              set_status (BaseSet vals)
                (with_base vals
                   (lit "Base: " ++ Py.join (lit " ") (z2 <$> vals)) s)
          end
      end
  end.

(** One round of the loop of [qp10]. *)
Definition quick_pick (rng : Rng) (s : AppState) : AppState :=
  let ns := merge_sort Z.le (sample rng (rng_calls s) (seqZ 1 40) 6) in
  wheel_step rng (with_rng_calls (S (rng_calls s)) s) ns.

(** [qp10] *)
Definition qp10 (rng : Rng) (s : AppState) : AppState :=
  set_status QuickPicksAdded (Nat.iter 10 (quick_pick rng) s).

(** [clear_wheel_and_base] *)
Definition clear_wheel_and_base (s : AppState) : AppState :=
  set_status Cleared (with_ticket_text [] (with_base [] [] s)).

(** [schedule_next]; [timer] is what [root.after] returns. *)
Definition schedule_next (rng : Rng) (timer : Z) (s : AppState)
  : option AppState :=
  if negb (running s) then Some s
  else
    let sp := Z.max 1 (speed_var s) in
    if sp <=? 1000
    then s1 ← do_draw_once rng s; Some (with_after_id (Some timer) s1)
    else
      let batch := Z.max 1 (sp / 1000) in
      s1 ← draw_cycles rng (Z.to_nat batch) s;
      Some (with_after_id (Some timer) s1).

(** [start_autorun] *)
Definition start_autorun (rng : Rng) (timer : Z) (s : AppState)
  : option AppState :=
  if running s then Some s else schedule_next rng timer (with_running true s).

(** [pause_autorun] *)
Definition pause_autorun (s : AppState) : AppState :=
  set_status Paused (with_after_id None (with_running false s)).

(** What can happen to the program: the buttons, the timer, and the user
    editing the ticket or changing a control. *)
Inductive Event :=
| PressDraw
| PressQP10
| PressStart (timer : Z)
| PressPause
| PressReset
| PressSystem (m : nat)
| PressPlayingSet (answer : option str)
| PressClear
| TimerFires (timer : Z)
| EditTicket (content : str)
| SetControls (speed : Z) (powerball strike : bool).

(** The state after an event; [None] when the callback raises before it
    has finished. *)
Definition handle (rng : Rng) (ev : Event) (s : AppState)
  : option AppState :=
  match ev with
  | PressDraw => do_draw_once rng s
  | PressQP10 => Some (qp10 rng s)
  | PressStart timer => start_autorun rng timer s
  | PressPause => Some (pause_autorun s)
  | PressReset => Some (on_reset s)
  | PressSystem m => system_wheel rng m s
  | PressPlayingSet answer => Some (set_base_numbers answer s)
  | PressClear => Some (clear_wheel_and_base s)
  | TimerFires timer => schedule_next rng timer s
  | EditTicket content => Some (with_ticket_text content s)
  | SetControls speed powerball strike =>
      Some (with_controls speed powerball strike s)
  end.

Fixpoint run (rng : Rng) (evs : list Event) (s : AppState)
  : option AppState :=
  match evs with
  | [] => Some s
  | ev :: rest => s1 ← handle rng ev s; run rng rest s1
  end.


(** ** Vocabulary of the statements *)

(** The tally holds exactly the eleven prize codes, as after [init_vars]. *)
Definition wf_tally (t : Tally) : Prop :=
  dom (stats t) = list_to_set codes ∧ dom (paid t) = list_to_set codes.

(** One award: one more hit for [code] and [amount] more paid under it. *)
Definition credit (code : string) (amount : Z) (t : Tally) : Tally :=
  {| stats := alter (fun n => n + 1) code (stats t);
     paid := alter (fun p => p + amount) code (paid t) |}.

(** A ticket line of the data model. *)
Definition valid_line (line : TicketLine) : Prop :=
  length (nums line) = 6%nat ∧ NoDup (nums line)
  ∧ Forall (fun n => 1 <= n <= 40) (nums line)
  ∧ (forall p, pb line = Some p -> 1 <= p <= 10).

(** A draw of the data model. *)
Definition valid_draw (d : Draw) : Prop :=
  length (main6 d) = 6%nat ∧ NoDup (main6 d ++ [bonus d])
  ∧ Forall (fun n => 1 <= n <= 40) (main6 d ++ [bonus d])
  ∧ 1 <= pb_draw d <= 10.

(** The main-game match count of the design document: how many numbers the
    line and the main numbers of the draw have in common. *)
Definition common_count (ns ms : list Z) : nat :=
  size (list_to_set ns ∩ list_to_set ms : gset Z).

(** The division table of the design document. *)
Definition spec_division (m : nat) (b : bool) : option Z :=
  match m, b with
  | 6%nat, _ => Some 1
  | 5%nat, true => Some 2
  | 5%nat, false => Some 3
  | 4%nat, true => Some 4
  | 4%nat, false => Some 5
  | 3%nat, true => Some 6
  | 3%nat, false => Some 7
  | _, _ => None
  end.

(** The side-bet hits of the design document: the positions among the first
    four at which the line as typed and the draw as drawn agree. *)
Definition positional_hits (ns ms : list Z) : Z :=
  Z.of_nat (length (filter (fun i => ns !! i = ms !! i) (seq 0 4))).


(** The amount a division pays, from the table the supplementary match
    selects, and the amount a side-bet tier pays. *)
Definition lotto_payout (division : Z) (powerball_matched : bool) : Z :=
  default 0 (Py.index (if powerball_matched then LOTTO_WITH_PB
                       else LOTTO_NO_PB) (division - 1)).

Definition strike_payout (hits : Z) : Z :=
  default 0 (Py.index STRIKE_PAYOUT (hits - 1)).

(** What scoring a line does to the tally, award by award. *)
Definition main_effect (division : option Z) (powerball_matched : bool)
    (t : Tally) : Tally :=
  match division with
  | Some d => credit (code_D d) (lotto_payout d powerball_matched) t
  | None => t
  end.

Definition strike_effect (strike_on : bool) (hits : Z) (t : Tally) : Tally :=
  if strike_on && (1 <=? hits)
  then credit (code_S hits) (strike_payout hits) t
  else t.

(** Every hit count and paid amount of [t] is at most that of [t']. *)
Definition tally_le (t t' : Tally) : Prop :=
  forall c, c ∈ codes ->
    (exists n n', stats t !! c = Some n ∧ stats t' !! c = Some n' ∧ n <= n')
    ∧ (exists p p', paid t !! c = Some p ∧ paid t' !! c = Some p' ∧ p <= p').




(** A random source that leaves the pool in order, samples the first
    elements and always answers the lower bound. *)
Definition rng_first : Rng :=
  {| shuffle := fun _ l => l;
     sample := fun _ l n => take n l;
     randrange := fun _ a _ => a |}.

(** A random source that answers the first shuffle of the pool with [balls]
    and every [randrange] with [p] when the bounds allow it. *)
Definition rng_of (balls : list Z) (p : Z) : Rng :=
  {| shuffle := fun _ l => if bool_decide (l = seqZ 1 40) then balls else l;
     sample := fun _ l n => take n l;
     randrange := fun _ a b => if bool_decide (a <= p < b) then p else a |}.


Definition line_tokens (raw : str) : list str :=
  Py.split (Py.replace "," " "
              (Py.replace "|" " " (Py.before "009" (Py.strip raw)))).

Definition collected (raw : str) : list Z :=
  (scan_tokens (line_tokens raw) [] None).1.

(** [[n for n in nums if 1 <= n <= 40]] for a raw line. *)
Definition valid_numbers (raw : str) : list Z :=
  filter (fun n => 1 <= n <= 40) (collected raw).

(** The scenarios of the design document. *)
Definition draw_1_to_6 : Draw :=
  {| main6 := [1; 2; 3; 4; 5; 6]; bonus := 7; pb_draw := 3 |}.
Definition line_all_six : TicketLine :=
  {| nums := [1; 2; 3; 4; 5; 6]; pb := Some 3 |}.
Definition line_three : TicketLine :=
  {| nums := [1; 2; 3; 40; 39; 38]; pb := None |}.
Definition line_reversed : TicketLine :=
  {| nums := [6; 5; 4; 3; 2; 1]; pb := None |}.
(** Two of the main numbers in place, no division, the supplementary number
    of the draw. *)
Definition line_two_in_place : TicketLine :=
  {| nums := [1; 2; 10; 11; 12; 13]; pb := Some 3 |}.

(** A state in the middle of a session: a win on the books, every control
    away from its default, base numbers stored, autorun on. *)
Definition busy_state : AppState :=
  {| ticket_text := lit "01 02 03 40 39 38";
     tally := credit (code_D 7) 280 init_vars;
     spend := 170; returns := 280; draw_number := 1; speed_var := 5;
     powerball_var := true; strike_var := true;
     base_numbers_var := lit "Base: 04 09 17"; V := [4; 9; 17];
     labels := draw_labels 1 draw_1_to_6; status_var := DrawDone 1 170 110;
     running := true; after_id := Some 12; rng_calls := 2 |}.

(** Characters of a token that is neither split nor rewritten by the
    parser: no white space, no vertical bar, comma or comment marker. *)
Definition plain (c : ascii) : bool :=
  negb (Py.isspace c) && negb (Ascii.eqb c "|") && negb (Ascii.eqb c ",")
  && negb (Ascii.eqb c "#").

Definition word (t : str) : Prop := t ≠ [] ∧ Forall (fun c => plain c = true) t.

(** What scoring one line against a draw does to the tally, and what the
    lines of a ticket cost in one draw cycle. *)
Definition line_effect (d : Draw) (strike_on : bool) (t : Tally)
    (line : TicketLine) : Tally :=
  strike_effect strike_on (positional_hits (nums line) (main6 d))
    (main_effect
       (division_of (count_main (nums line) (main6 d))
          (bool_decide (bonus d ∈ nums line)))
       (pb_matched line (pb_draw d)) t).

Definition total_cost (lines : list TicketLine) (strike_on : bool) : Z :=
  foldr (fun line acc => line_cost line strike_on + acc) 0 lines.

(** The number of draw cycles one tick of the timer runs at a given
    speed. *)
Definition cycles_per_tick (speed : Z) : Z :=
  if Z.max 1 speed <=? 1000 then 1 else Z.max 1 speed / 1000.

(** The books of the program: tally, spend, returns and draw counter.
    [reachable_books] are the books that come from the initial ones by draw
    cycles, each scoring the valid lines of some non-empty ticket against
    some valid draw. *)
Inductive reachable_books : Tally -> Z -> Z -> Z -> Prop :=
| books_init : reachable_books init_vars 0 0 0
| books_cycle t sp ret n d strike lines :
    reachable_books t sp ret n ->
    lines ≠ [] -> Forall (fun l => length (nums l) = 6%nat) lines ->
    valid_draw d ->
    reachable_books (foldl (line_effect d strike) t lines)
      (sp + total_cost lines strike)
      (sum_values (paid (foldl (line_effect d strike) t lines)))
      (n + 1).

(** Under every side-bet code the paid amount is the hit count times the
    payout of the tier; under every division code it lies between the hit
    count times the lower and times the higher payout. *)
Definition tally_consistent (t : Tally) : Prop :=
  (forall k, 1 <= k <= 4 ->
     exists n, 0 <= n ∧ stats t !! code_S k = Some n
               ∧ paid t !! code_S k = Some (n * strike_payout k))
  ∧ (forall k, 1 <= k <= 7 ->
       exists n p, 0 <= n ∧ stats t !! code_D k = Some n
                   ∧ paid t !! code_D k = Some p
                   ∧ n * lotto_payout k false <= p <= n * lotto_payout k true).

(** [s'] differs from [s] at most in the ticket text, the controls, the
    base numbers, the status, the autorun flags and the count of calls of
    the random source. *)
Definition same_books (s s' : AppState) : Prop :=
  tally s' = tally s ∧ spend s' = spend s ∧ returns s' = returns s
  ∧ draw_number s' = draw_number s ∧ labels s' = labels s.

(** A ticket text to which lines can be appended: it is empty or ends
    with a line feed. *)
Definition closed_text (t : str) : Prop :=
  t = [] ∨ exists t', t = t' ++ ["010"%char].

(** The supplementary number of a generated line, by the Powerball
    toggle. *)
Definition pb_as_set (powerball : bool) (p : option Z) : Prop :=
  if powerball then exists v, p = Some v ∧ 1 <= v <= 10 else p = None.

(** The number of ways to choose [k] of [n], by Pascal's rule. *)
Fixpoint choose (n k : nat) : nat :=
  match n, k with
  | _, O => 1
  | O, S _ => 0
  | S n', S k' => choose n' k' + choose n' k
  end.

(** Base numbers as [set_base_numbers] stores them: ascending without
    repeats, from 1 to 40. *)
Definition valid_base (v : list Z) : Prop :=
  StronglySorted Z.lt v ∧ Forall (fun n => 1 <= n <= 40) v.

(** An event the window can deliver: the wheel buttons are those of the
    sizes 7 to 11. *)
Definition on_offer (ev : Event) : Prop :=
  match ev with
  | PressSystem m => (7 <= m <= 11)%nat
  | _ => True
  end.

(** * Properties *)

(** ** The tally *)

Lemma codes_NoDup : NoDup codes.
Proof. compute_done. Qed.

Lemma wf_tally_lookup t c :
  wf_tally t -> c ∈ codes -> is_Some (stats t !! c) ∧ is_Some (paid t !! c).
Proof.
  intros [Hs Hp] Hc. rewrite <- !elem_of_dom, Hs, Hp.
  split; by apply elem_of_list_to_set.
Qed.

Lemma wf_tally_init : wf_tally init_vars.
Proof.
  split; compute_done.
Qed.

Lemma wf_tally_credit c a t : wf_tally t -> wf_tally (credit c a t).
Proof. intros [Hs Hp]. split; simpl; by rewrite dom_alter_L. Qed.

Lemma code_D_in k : 1 <= k <= 7 -> code_D k ∈ codes.
Proof.
  intros Hk.
  assert (k = 1 ∨ k = 2 ∨ k = 3 ∨ k = 4 ∨ k = 5 ∨ k = 6 ∨ k = 7)
    as Hcases by lia.
  destruct_or!; subst k; compute_done.
Qed.

Lemma code_S_in k : 1 <= k <= 4 -> code_S k ∈ codes.
Proof.
  intros Hk.
  assert (k = 1 ∨ k = 2 ∨ k = 3 ∨ k = 4) as Hcases by lia.
  destruct_or!; subst k; compute_done.
Qed.

Lemma code_D_inj j k : code_D j = code_D k -> j = k.
Proof.
  unfold code_D. intros H. apply (inj (String.app "D")) in H.
  by apply (inj pretty) in H.
Qed.

Lemma code_S_inj j k : code_S j = code_S k -> j = k.
Proof.
  unfold code_S. intros H. apply (inj (String.app "S")) in H.
  by apply (inj pretty) in H.
Qed.

Lemma code_D_S j k : code_D j ≠ code_S k.
Proof. unfold code_D, code_S. intros H. discriminate H. Qed.

Lemma insert_as_alter (m : gmap string Z) c n f :
  m !! c = Some n -> <[c := f n]> m = alter f c m.
Proof.
  intros H. apply map_eq. intros j. rewrite lookup_insert, lookup_alter.
  case_decide; subst; by rewrite ?H.
Qed.

Lemma award_lotto_credit t d pm :
  wf_tally t -> 1 <= d <= 7 ->
  award_lotto d pm t = Some (credit (code_D d) (lotto_payout d pm) t).
Proof.
  intros Hwf Hd.
  destruct (wf_tally_lookup t (code_D d) Hwf (code_D_in d Hd))
    as [[n Hn] [p Hp]].
  unfold award_lotto, credit, lotto_payout. rewrite Hn, Hp.
  assert (is_Some (Py.index (if pm then LOTTO_WITH_PB else LOTTO_NO_PB)
                     (d - 1))) as [a Ha].
  { assert (d = 1 ∨ d = 2 ∨ d = 3 ∨ d = 4 ∨ d = 5 ∨ d = 6 ∨ d = 7)
      as Hcases by lia.
    destruct_or!; subst d; destruct pm; by eexists. }
  rewrite Ha. simpl.
  by rewrite (insert_as_alter _ _ n (fun n => n + 1)),
    (insert_as_alter _ _ p (fun p => p + a)).
Qed.

Lemma award_strike_credit t h :
  wf_tally t -> 1 <= h <= 4 ->
  award_strike h t = Some (credit (code_S h) (strike_payout h) t).
Proof.
  intros Hwf Hh.
  destruct (wf_tally_lookup t (code_S h) Hwf (code_S_in h Hh))
    as [[n Hn] [p Hp]].
  unfold award_strike, credit, strike_payout. rewrite Hn, Hp.
  assert (is_Some (Py.index STRIKE_PAYOUT (h - 1))) as [a Ha].
  { assert (h = 1 ∨ h = 2 ∨ h = 3 ∨ h = 4) as Hcases by lia.
    destruct_or!; subst h; by eexists. }
  rewrite Ha. simpl.
  by rewrite (insert_as_alter _ _ n (fun n => n + 1)),
    (insert_as_alter _ _ p (fun p => p + a)).
Qed.

(** ** Scoring one line *)

Lemma division_of_range m b d : division_of m b = Some d -> 1 <= d <= 7.
Proof.
  unfold division_of. intros H.
  repeat (case_match; simplify_eq; try lia).
Qed.

Lemma division_of_spec m b : division_of m b = spec_division m b.
Proof.
  do 7 (destruct m as [|m]; [by destruct b|]). by destruct b.
Qed.

Lemma count_main_common ns ms :
  NoDup ns -> count_main ns ms = common_count ns ms.
Proof.
  intros Hnd. unfold count_main, common_count.
  assert ((list_to_set ns ∩ list_to_set ms : gset Z)
          = list_to_set (filter (fun x => x ∈ ms) ns)) as ->.
  { apply set_eq. intros x.
    rewrite elem_of_intersection, !elem_of_list_to_set, list_elem_of_filter.
    tauto. }
  symmetry. apply size_list_to_set. by apply NoDup_filter.
Qed.

Lemma strike_hits_positional ns ms :
  (4 <= length ns)%nat -> (4 <= length ms)%nat ->
  strike_hits (take 4 ns) (take 4 ms) = Some (positional_hits ns ms).
Proof.
  intros Hn Hm.
  destruct ns as [|a0 [|a1 [|a2 [|a3 ns]]]]; simpl in Hn; try lia.
  destruct ms as [|b0 [|b1 [|b2 [|b3 ms]]]]; simpl in Hm; try lia.
  unfold strike_hits, positional_hits. simpl.
  rewrite !filter_cons, filter_nil. simpl.
  repeat case_bool_decide; repeat case_decide; simplify_eq; try done.
Qed.

Lemma positional_hits_range ns ms : 0 <= positional_hits ns ms <= 4.
Proof.
  unfold positional_hits.
  pose proof (length_filter (fun i => ns !! i = ms !! i) (seq 0 4)) as H.
  simpl in *. lia.
Qed.

Lemma score_line_credit line ms bonus pbd strike t :
  wf_tally t ->
  (strike = true -> (4 <= length (nums line))%nat ∧ (4 <= length ms)%nat) ->
  score_line_against_draw line ms bonus pbd strike t
  = Some (line_cost line strike,
          strike_effect strike (positional_hits (nums line) ms)
            (main_effect
               (division_of (count_main (nums line) ms)
                  (bool_decide (bonus ∈ nums line)))
               (pb_matched line pbd) t)).
Proof.
  intros Hwf Hlen. unfold score_line_against_draw, main_effect.
  set (division := division_of _ _).
  assert (exists t1, match division with
                     | Some d => award_lotto d (pb_matched line pbd) t
                     | None => Some t
                     end = Some t1
                     ∧ t1 = match division with
                            | Some d => credit (code_D d)
                                (lotto_payout d (pb_matched line pbd)) t
                            | None => t
                            end ∧ wf_tally t1) as (t1 & -> & Ht1 & Hwf1).
  { destruct division as [d|] eqn:Hd.
    - apply division_of_range in Hd.
      eexists; split; [by apply award_lotto_credit|].
      split; [done|by apply wf_tally_credit].
    - by eexists. }
  rewrite <- Ht1. simpl. unfold strike_effect.
  destruct strike; simpl; [|done].
  destruct Hlen as [Hn Hm]; [done|].
  rewrite strike_hits_positional by done. simpl.
  pose proof (positional_hits_range (nums line) ms) as Hr.
  destruct (1 <=? positional_hits (nums line) ms) eqn:Hh; [|done].
  apply Z.leb_le in Hh. rewrite award_strike_credit by (done || lia). done.
Qed.

Lemma wf_tally_effects strike hits division pm t :
  wf_tally t -> wf_tally (strike_effect strike hits (main_effect division pm t)).
Proof.
  intros Hwf. unfold strike_effect, main_effect.
  destruct division, (strike && (1 <=? hits));
    repeat apply wf_tally_credit; done.
Qed.

Lemma pb_matched_iff line pbd :
  pb_matched line pbd = bool_decide (pb line = Some pbd).
Proof.
  unfold pb_matched. destruct (pb line) as [p|]; [|done].
  apply bool_decide_ext. split; congruence.
Qed.

Lemma lookup_stats_credit c a t j :
  stats (credit c a t) !! j
  = (fun n => n + if bool_decide (c = j) then 1 else 0) <$> stats t !! j.
Proof.
  simpl. rewrite lookup_alter. case_decide; case_bool_decide; subst; try done.
  destruct (stats t !! j); simpl; f_equal; lia.
Qed.

Lemma lookup_paid_credit c a t j :
  paid (credit c a t) !! j
  = (fun p => p + if bool_decide (c = j) then a else 0) <$> paid t !! j.
Proof.
  simpl. rewrite lookup_alter. case_decide; case_bool_decide; subst; try done.
  destruct (paid t !! j); simpl; f_equal; lia.
Qed.

Lemma lookup_main_effect division pm t k :
  stats (main_effect division pm t) !! code_D k
  = (fun n => n + if bool_decide (division = Some k) then 1 else 0)
      <$> stats t !! code_D k
  ∧ paid (main_effect division pm t) !! code_D k
    = (fun p => p + if bool_decide (division = Some k)
                    then lotto_payout k pm else 0)
        <$> paid t !! code_D k.
Proof.
  unfold main_effect. destruct division as [d|].
  - rewrite lookup_stats_credit, lookup_paid_credit.
    destruct (decide (d = k)) as [->|Hne].
    + by rewrite !bool_decide_eq_true_2.
    + rewrite !(bool_decide_eq_false_2 (code_D d = code_D k))
        by (intros H; by apply code_D_inj in H).
      by rewrite !(bool_decide_eq_false_2 (Some d = Some k)) by congruence.
  - rewrite !bool_decide_eq_false_2 by done.
    split; [destruct (stats t !! code_D k)|destruct (paid t !! code_D k)];
      simpl; f_equal; lia.
Qed.

Lemma lookup_main_effect_S division pm t k :
  stats (main_effect division pm t) !! code_S k = stats t !! code_S k
  ∧ paid (main_effect division pm t) !! code_S k = paid t !! code_S k.
Proof.
  unfold main_effect. destruct division as [d|]; [|done]. simpl.
  rewrite !lookup_alter_ne by apply code_D_S. done.
Qed.

Lemma lookup_strike_effect_D strike hits t k :
  stats (strike_effect strike hits t) !! code_D k = stats t !! code_D k
  ∧ paid (strike_effect strike hits t) !! code_D k = paid t !! code_D k.
Proof.
  unfold strike_effect. destruct (strike && (1 <=? hits)); [|done]. simpl.
  rewrite !lookup_alter_ne by (intros H; symmetry in H; by apply code_D_S in H).
  done.
Qed.

Lemma lookup_strike_effect strike hits t k :
  1 <= k ->
  stats (strike_effect strike hits t) !! code_S k
  = (fun n => n + if bool_decide (strike = true ∧ k = hits) then 1 else 0)
      <$> stats t !! code_S k
  ∧ paid (strike_effect strike hits t) !! code_S k
    = (fun p => p + if bool_decide (strike = true ∧ k = hits)
                    then strike_payout k else 0)
        <$> paid t !! code_S k.
Proof.
  intros Hk. unfold strike_effect.
  destruct (strike && (1 <=? hits)) eqn:Hon.
  - apply andb_true_iff in Hon as [-> Hh].
    rewrite lookup_stats_credit, lookup_paid_credit.
    destruct (decide (hits = k)) as [->|Hne].
    + by rewrite !bool_decide_eq_true_2.
    + rewrite !(bool_decide_eq_false_2 (code_S hits = code_S k))
        by (intros H; by apply code_S_inj in H).
      by rewrite !(bool_decide_eq_false_2 (true = true ∧ k = hits))
        by (intros [_ ?]; congruence).
  - rewrite !(bool_decide_eq_false_2 (strike = true ∧ k = hits)).
    + split; [destruct (stats t !! code_S k)|destruct (paid t !! code_S k)];
        simpl; f_equal; lia.
    + intros [-> ->]. simpl in Hon. apply Z.leb_gt in Hon. lia.
Qed.

Lemma valid_draw_1_to_6 : valid_draw draw_1_to_6.
Proof. split_and!; try compute_done; simpl; lia. Qed.

Lemma valid_line_intro ns p :
  length ns = 6%nat -> NoDup ns -> Forall (fun n => 1 <= n <= 40) ns ->
  from_option (fun v => 1 <= v <= 10) True p ->
  valid_line {| nums := ns; pb := p |}.
Proof.
  intros ??? Hp. split_and!; try done.
  intros v Hv. simpl in Hv. subst p. exact Hp.
Qed.

(** C1. A line of six distinct numbers scored against a draw gets at most
    one main-game division, and which one is read off the table of the
    design document from the pair [(m, b)]: [m] the number of values the line
    shares with the six main numbers, in any order, and [b] whether the bonus
    is among the line's numbers.  The hit count of [Dk] grows by one exactly
    for the [k] the table gives (for no [k] when it gives none), and the
    amount paid under [Dk] grows by that division's payout. *)
Theorem score_line_division line d strike t :
  valid_line line -> valid_draw d -> wf_tally t ->
  let m := common_count (nums line) (main6 d) in
  let b := bool_decide (bonus d ∈ nums line) in
  exists t',
    score_line_against_draw line (main6 d) (bonus d) (pb_draw d) strike t
    = Some (line_cost line strike, t')
    ∧ forall k, 1 <= k <= 7 ->
        stats t' !! code_D k
        = (fun n => n + if bool_decide (spec_division m b = Some k)
                        then 1 else 0) <$> stats t !! code_D k
        ∧ paid t' !! code_D k
          = (fun p => p + if bool_decide (spec_division m b = Some k)
                          then lotto_payout k (pb_matched line (pb_draw d))
                          else 0) <$> paid t !! code_D k.
Proof.
  intros (Hlen & Hnd & _) (Hlen' & _) Hwf. cbv zeta.
  eexists. split.
  { apply score_line_credit; [done|]. intros _. rewrite Hlen, Hlen'. lia. }
  intros k Hk.
  destruct (lookup_strike_effect_D strike
              (positional_hits (nums line) (main6 d))
              (main_effect
                 (division_of (count_main (nums line) (main6 d))
                    (bool_decide (bonus d ∈ nums line)))
                 (pb_matched line (pb_draw d)) t) k) as [-> ->].
  rewrite division_of_spec, count_main_common by done.
  apply lookup_main_effect.
Qed.

Lemma score_line_division_witness :
  valid_line line_three ∧ valid_draw draw_1_to_6 ∧ wf_tally init_vars
  ∧ exists t',
      score_line_against_draw line_three (main6 draw_1_to_6)
        (bonus draw_1_to_6) (pb_draw draw_1_to_6) true init_vars
      = Some (170, t')
      ∧ stats t' !! code_D 7 = Some 1 ∧ paid t' !! code_D 7 = Some 280
      ∧ stats t' !! code_D 1 = Some 0.
Proof.
  assert (valid_line line_three) as Hl
    by (apply valid_line_intro; compute_done).
  pose proof valid_draw_1_to_6 as Hd.
  pose proof wf_tally_init as Hwf.
  do 3 (split; [done|]).
  destruct (score_line_division line_three draw_1_to_6 true init_vars
              Hl Hd Hwf) as (t' & Hs & Hk).
  exists t'. split; [exact Hs|].
  destruct (Hk 7 ltac:(lia)) as [H7 H7']. destruct (Hk 1 ltac:(lia)) as [H1 _].
  rewrite H7, H7', H1. done.
Defined.

Lemma valid_line_reversed : valid_line line_reversed.
Proof.
  apply valid_line_intro; compute_done.
Qed.

Lemma valid_line_two_in_place : valid_line line_two_in_place.
Proof.
  apply valid_line_intro; compute_done.
Qed.

(** C2. With the side bet enabled, the hits of a line are the positions
    among the first four at which the line as typed and the main numbers as
    drawn agree.  With at least one hit, exactly the tier [S hits] gets one
    more hit and its payout, and no other tier changes; with no hit, and
    whenever the side bet is disabled, no tier changes.  The payouts grow
    strictly with the tier.  The line typed 6 5 4 3 2 1 has no hit against a
    draw that starts 1 2 3 4.  With the side bet disabled scoring reads no
    position at all: it succeeds on lists of any length. *)
Theorem score_line_side_bet line d strike t :
  valid_line line -> valid_draw d -> wf_tally t ->
  let hits := positional_hits (nums line) (main6 d) in
  (exists t',
     score_line_against_draw line (main6 d) (bonus d) (pb_draw d) strike t
     = Some (line_cost line strike, t')
     ∧ forall k, 1 <= k <= 4 ->
         stats t' !! code_S k
         = (fun n => n + if bool_decide (strike = true ∧ k = hits)
                         then 1 else 0) <$> stats t !! code_S k
         ∧ paid t' !! code_S k
           = (fun p => p + if bool_decide (strike = true ∧ k = hits)
                           then strike_payout k else 0)
               <$> paid t !! code_S k)
  ∧ 0 <= hits <= 4
  ∧ (forall j k, 1 <= j -> j < k -> k <= 4 ->
       strike_payout j < strike_payout k)
  ∧ (forall rest, positional_hits [6; 5; 4; 3; 2; 1] (1 :: 2 :: 3 :: 4 :: rest)
                  = 0)
  ∧ (forall l ms bn pd,
       is_Some (score_line_against_draw l ms bn pd false t)).
Proof.
  intros (Hlen & _) (Hlen' & _) Hwf. cbv zeta. split_and!.
  - eexists. split.
    { apply score_line_credit; [done|]. intros _. rewrite Hlen, Hlen'. lia. }
    intros k Hk.
    destruct (lookup_strike_effect strike
                (positional_hits (nums line) (main6 d))
                (main_effect
                   (division_of (count_main (nums line) (main6 d))
                      (bool_decide (bonus d ∈ nums line)))
                   (pb_matched line (pb_draw d)) t) k ltac:(lia)) as [-> ->].
    destruct (lookup_main_effect_S
                (division_of (count_main (nums line) (main6 d))
                   (bool_decide (bonus d ∈ nums line)))
                (pb_matched line (pb_draw d)) t k) as [-> ->].
    done.
  - apply positional_hits_range.
  - apply positional_hits_range.
  - intros j k Hj Hjk Hk.
    assert (j = 1 ∨ j = 2 ∨ j = 3) as Hcj by lia.
    assert (k = 2 ∨ k = 3 ∨ k = 4) as Hck by lia.
    destruct_or!; subst j k; try lia; by vm_compute.
  - intros rest. reflexivity.
  - intros l ms bn pd. rewrite score_line_credit; [by eexists|done|done].
Qed.

Lemma score_line_side_bet_witness :
  valid_line line_two_in_place ∧ valid_draw draw_1_to_6 ∧ wf_tally init_vars
  ∧ positional_hits (nums line_two_in_place) (main6 draw_1_to_6) = 2
  ∧ exists t',
      score_line_against_draw line_two_in_place (main6 draw_1_to_6)
        (bonus draw_1_to_6) (pb_draw draw_1_to_6) true init_vars
      = Some (250, t')
      ∧ stats t' !! code_S 2 = Some 1 ∧ paid t' !! code_S 2 = Some 7700
      ∧ stats t' !! code_S 1 = Some 0 ∧ paid t' !! code_S 1 = Some 0.
Proof.
  pose proof valid_line_two_in_place as Hl.
  pose proof valid_draw_1_to_6 as Hd.
  pose proof wf_tally_init as Hwf.
  do 3 (split; [done|]). split; [reflexivity|].
  destruct (score_line_side_bet line_two_in_place draw_1_to_6 true init_vars
              Hl Hd Hwf) as ((t' & Hs & Hk) & _).
  exists t'. split; [exact Hs|].
  destruct (Hk 2 ltac:(lia)) as [H2 H2']. destruct (Hk 1 ltac:(lia)) as [H1 H1'].
  rewrite H2, H2', H1, H1'. done.
Defined.

(** C3. When a line wins a division, the amount paid under it is the entry
    of the higher table exactly when the line declares a supplementary
    number and that number is the one drawn, and the entry of the lower
    table otherwise; every entry of the higher table exceeds the matching
    entry of the lower one.  A line that wins no division gets nothing for
    its supplementary number: the tally after scoring is the one the side
    bet alone gives, whatever the supplementary numbers are, and is the
    tally before scoring when the side bet is disabled. *)
Theorem score_line_supplementary line d strike t :
  valid_line line -> valid_draw d -> wf_tally t ->
  let m := common_count (nums line) (main6 d) in
  let b := bool_decide (bonus d ∈ nums line) in
  let matched := bool_decide (pb line = Some (pb_draw d)) in
  exists t',
    score_line_against_draw line (main6 d) (bonus d) (pb_draw d) strike t
    = Some (line_cost line strike, t')
    ∧ (forall k, spec_division m b = Some k ->
         paid t' !! code_D k
         = (fun p => p + if matched then lotto_payout k true
                         else lotto_payout k false) <$> paid t !! code_D k)
    ∧ (pb line = None -> matched = false)
    ∧ (forall k, 1 <= k <= 7 -> lotto_payout k false < lotto_payout k true)
    ∧ (spec_division m b = None ->
         t' = strike_effect strike (positional_hits (nums line) (main6 d)) t
         ∧ (strike = false -> t' = t)).
Proof.
  intros (Hlen & Hnd & _) (Hlen' & _) Hwf. cbv zeta.
  eexists. split_and!.
  - apply score_line_credit; [done|]. intros _. rewrite Hlen, Hlen'. lia.
  - intros k Hk.
    destruct (lookup_strike_effect_D strike
                (positional_hits (nums line) (main6 d))
                (main_effect
                   (division_of (count_main (nums line) (main6 d))
                      (bool_decide (bonus d ∈ nums line)))
                   (pb_matched line (pb_draw d)) t) k) as [_ ->].
    rewrite division_of_spec, count_main_common, Hk by done.
    destruct (lookup_main_effect (Some k) (pb_matched line (pb_draw d)) t k)
      as [_ ->].
    rewrite bool_decide_eq_true_2, pb_matched_iff by done.
    by destruct (bool_decide (pb line = Some (pb_draw d))).
  - intros Hnone. rewrite Hnone. by apply bool_decide_eq_false_2.
  - intros k Hk.
    assert (k = 1 ∨ k = 2 ∨ k = 3 ∨ k = 4 ∨ k = 5 ∨ k = 6 ∨ k = 7)
      as Hcases by lia.
    destruct_or!; subst k; by vm_compute.
  - intros Hnone.
    rewrite division_of_spec, count_main_common, Hnone by done.
    split; [done|]. by intros ->.
Qed.

Lemma score_line_supplementary_witness :
  valid_line line_two_in_place ∧ valid_draw draw_1_to_6 ∧ wf_tally init_vars
  ∧ pb line_two_in_place = Some (pb_draw draw_1_to_6)
  ∧ score_line_against_draw line_two_in_place (main6 draw_1_to_6)
      (bonus draw_1_to_6) (pb_draw draw_1_to_6) false init_vars
    = Some (150, init_vars).
Proof.
  pose proof valid_line_two_in_place as Hl.
  pose proof valid_draw_1_to_6 as Hd.
  pose proof wf_tally_init as Hwf.
  do 3 (split; [done|]). split; [reflexivity|].
  destruct (score_line_supplementary line_two_in_place draw_1_to_6 false
              init_vars Hl Hd Hwf) as (t' & Hs & _ & _ & _ & Hnone).
  destruct Hnone as [_ Hoff]; [reflexivity|].
  rewrite (Hoff eq_refl) in Hs. exact Hs.
Defined.

(** ** The parser *)


Lemma parse_line_Some raw line :
  parse_line raw = Some line ->
  nums line = take 6 (valid_numbers raw)
  ∧ (6 <= length (valid_numbers raw))%nat
  ∧ from_option (fun v => 1 <= v <= 10) True (pb line).
Proof.
  unfold parse_line, valid_numbers, collected, line_tokens.
  destruct (bool_decide (Py.strip raw = []) || _); [done|].
  destruct (scan_tokens _ [] None) as [ns p] eqn:Hscan. simpl.
  destruct (length (take 6 _) <? 6)%nat eqn:Hlen; [done|].
  apply Nat.ltb_ge in Hlen. rewrite length_take in Hlen.
  intros [= <-]. simpl. split_and!; [done|lia|].
  destruct p as [v|]; [|done]. by case_bool_decide.
Qed.





(** ** The draw *)

Lemma take_sample_laws (l : list Z) n :
  ((n <= length l)%nat -> length (take n l) = n)
  ∧ (forall x, x ∈ take n l -> x ∈ l)
  ∧ (NoDup l -> NoDup (take n l)).
Proof.
  split_and!.
  - intros Hn. rewrite length_take. lia.
  - intros x Hx. eapply elem_of_sublist; [exact Hx|apply sublist_take].
  - intros Hnd. eapply sublist_NoDup; [done|apply sublist_take].
Qed.

Lemma rng_of_laws balls p :
  Permutation balls (seqZ 1 40) -> RngLaws (rng_of balls p).
Proof.
  intros Hperm. split; simpl.
  - intros _ l. case_bool_decide; [by subst|done].
  - intros _ l n. apply take_sample_laws.
  - intros _ l n. apply take_sample_laws.
  - intros _ l n. apply take_sample_laws.
  - intros _ a b Hab. case_bool_decide; lia.
Qed.

Lemma rng_first_laws : RngLaws rng_first.
Proof.
  split; simpl.
  - done.
  - intros _ l n. apply take_sample_laws.
  - intros _ l n. apply take_sample_laws.
  - intros _ l n. apply take_sample_laws.
  - intros _ a b Hab. lia.
Qed.

Lemma seqZ_pool :
  length (seqZ 1 40) = 40%nat ∧ NoDup (seqZ 1 40)
  ∧ Forall (fun n => 1 <= n <= 40) (seqZ 1 40).
Proof.
  split_and!; [done|apply NoDup_seqZ|].
  apply Forall_forall. intros n Hn. apply elem_of_seqZ in Hn. lia.
Qed.

Lemma draw_of_balls rng k balls :
  shuffle rng k (seqZ 1 40) = balls -> Permutation balls (seqZ 1 40) ->
  exists b, balls !! 6%nat = Some b
    ∧ draw_lotto rng k
      = Some {| main6 := take 6 balls; bonus := b;
                pb_draw := randrange rng (S k) 1 11 |}
    ∧ length (take 6 balls) = 6%nat
    ∧ NoDup (take 6 balls ++ [b])
    ∧ Forall (fun n => 1 <= n <= 40) (take 6 balls ++ [b]).
Proof.
  intros Hsh Hperm. destruct seqZ_pool as (Hlen & Hnd & Hall).
  assert (length balls = 40%nat) as Hlb
    by (by rewrite (Permutation_length Hperm)).
  destruct (lookup_lt_is_Some_2 balls 6) as [b Hb]; [lia|].
  exists b. unfold draw_lotto. rewrite Hsh, Hb. simpl.
  rewrite <- (take_S_r balls 6 b Hb).
  split_and!; try done.
  - rewrite length_take. lia.
  - eapply sublist_NoDup; [|apply sublist_take]. by rewrite Hperm.
  - apply Forall_take. by rewrite Hperm.
Qed.

(** C5. Whatever the random source answers, [draw_lotto] returns a draw:
    six distinct main numbers between 1 and 40, a bonus between 1 and 40
    that is none of them, and a supplementary number between 1 and 10.  The
    supplementary number is drawn on its own: every permutation of the pool
    together with every number from 1 to 10 is a draw some random source
    gives, so it can be one of the main numbers and it can be the bonus. *)
Theorem draw_lotto_valid rng k :
  RngLaws rng ->
  (exists d, draw_lotto rng k = Some d ∧ valid_draw d ∧ bonus d ∉ main6 d)
  ∧ (forall balls p,
       Permutation balls (seqZ 1 40) -> 1 <= p <= 10 ->
       exists rng' b,
         RngLaws rng' ∧ balls !! 6%nat = Some b
         ∧ draw_lotto rng' k
           = Some {| main6 := take 6 balls; bonus := b; pb_draw := p |})
  ∧ (exists rng' d, RngLaws rng' ∧ draw_lotto rng' k = Some d
                    ∧ pb_draw d ∈ main6 d)
  ∧ (exists rng' d, RngLaws rng' ∧ draw_lotto rng' k = Some d
                    ∧ pb_draw d = bonus d).
Proof.
  intros Hlaws. split_and!.
  - destruct (draw_of_balls rng k _ eq_refl (shuffle_perm rng Hlaws k _))
      as (b & Hb & Hd & Hlen & Hnd & Hall).
    eexists. split; [exact Hd|]. split.
    + pose proof (randrange_bounds rng Hlaws (S k) 1 11).
      split_and!; simpl; try done; lia.
    + simpl. apply NoDup_app in Hnd as (_ & Hdis & _).
      intros Hin. apply (Hdis b Hin). by left.
  - intros balls p Hperm Hp.
    destruct (draw_of_balls (rng_of balls p) k balls) as (b & Hb & Hd & _).
    { reflexivity. }
    { done. }
    exists (rng_of balls p), b. split; [by apply rng_of_laws|].
    split; [done|]. rewrite Hd. cbn [randrange rng_of].
    by rewrite bool_decide_eq_true_2 by lia.
  - exists (rng_of (seqZ 1 40) 3). eexists.
    split; [by apply rng_of_laws|]. split; [reflexivity|]. compute_done.
  - exists (rng_of (seqZ 1 40) 7). eexists.
    split; [by apply rng_of_laws|]. split; [reflexivity|]. reflexivity.
Qed.

Lemma draw_lotto_valid_witness :
  RngLaws rng_first
  ∧ exists d, draw_lotto rng_first 0 = Some d ∧ valid_draw d
              ∧ bonus d ∉ main6 d.
Proof.
  split; [exact rng_first_laws|].
  exact (proj1 (draw_lotto_valid rng_first 0 rng_first_laws)).
Defined.

(** ** The ledger *)

Lemma sum_values_insert (m : gmap string Z) c v :
  m !! c = None -> sum_values (<[c := v]> m) = v + sum_values m.
Proof.
  intros Hc. unfold sum_values.
  apply (map_fold_insert_L (fun _ v acc => v + acc)); [|done].
  intros. lia.
Qed.

Lemma sum_values_alter (m : gmap string Z) c p a :
  m !! c = Some p ->
  sum_values (alter (fun p => p + a) c m) = sum_values m + a.
Proof.
  intros Hc.
  rewrite <- (insert_as_alter m c p (fun p => p + a) Hc).
  rewrite <- (insert_delete_id m c p Hc) at 2.
  rewrite <- (insert_delete_eq m).
  rewrite !sum_values_insert by apply lookup_delete_eq. lia.
Qed.

Lemma index_payout_nonneg (l : list Z) i :
  Forall (fun a => 0 <= a) l -> 0 <= default 0 (Py.index l i).
Proof.
  intros Hl. destruct (Py.index l i) as [a|] eqn:Ha; [|done]. simpl.
  unfold Py.index in Ha.
  repeat case_match; try done;
    by eapply (Forall_lookup_1 _ l), Ha.
Qed.

Lemma lotto_payout_nonneg d pm : 0 <= lotto_payout d pm.
Proof.
  apply index_payout_nonneg. destruct pm; repeat constructor; lia.
Qed.

Lemma strike_payout_nonneg h : 0 <= strike_payout h.
Proof. apply index_payout_nonneg. repeat constructor; lia. Qed.



Lemma tally_le_refl t : wf_tally t -> tally_le t t.
Proof.
  intros Hwf c Hc. destruct (wf_tally_lookup t c Hwf Hc) as [[n Hn] [p Hp]].
  split; [exists n, n|exists p, p]; split_and!; done || lia.
Qed.

Lemma tally_le_trans t1 t2 t3 :
  tally_le t1 t2 -> tally_le t2 t3 -> tally_le t1 t3.
Proof.
  intros H12 H23 c Hc.
  destruct (H12 c Hc) as [(n1 & n2 & Hn1 & Hn2 & ?) (p1 & p2 & Hp1 & Hp2 & ?)].
  destruct (H23 c Hc) as [(n2' & n3 & Hn2' & Hn3 & ?) (p2' & p3 & Hp2' & Hp3 & ?)].
  simplify_eq.
  split; [exists n1, n3|exists p1, p3]; split_and!; done || lia.
Qed.

Lemma tally_le_credit c a t :
  wf_tally t -> 0 <= a -> tally_le t (credit c a t).
Proof.
  intros Hwf Ha j Hj. destruct (wf_tally_lookup t j Hwf Hj) as [[n Hn] [p Hp]].
  rewrite lookup_stats_credit, lookup_paid_credit, Hn, Hp. simpl.
  split; eexists _, _; (split_and!; [done|done|]); case_bool_decide; lia.
Qed.

Lemma sum_values_credit c a t :
  wf_tally t -> c ∈ codes ->
  sum_values (paid (credit c a t)) = sum_values (paid t) + a.
Proof.
  intros Hwf Hc. destruct (wf_tally_lookup t c Hwf Hc) as [_ [p Hp]].
  by apply sum_values_alter with p.
Qed.

(** What one scored line leaves behind. *)
Lemma effects_monotone strike hits division pm t :
  wf_tally t ->
  from_option (fun d => 1 <= d <= 7) True division -> 0 <= hits <= 4 ->
  let t' := strike_effect strike hits (main_effect division pm t) in
  wf_tally t' ∧ tally_le t t'
  ∧ sum_values (paid t) <= sum_values (paid t').
Proof.
  intros Hwf Hd Hh. cbv zeta.
  assert (wf_tally (main_effect division pm t)
          ∧ tally_le t (main_effect division pm t)
          ∧ sum_values (paid t)
            <= sum_values (paid (main_effect division pm t)))
    as (Hwf1 & Hle1 & Hsum1).
  { unfold main_effect. destruct division as [d|]; simpl in Hd.
    - pose proof (lotto_payout_nonneg d pm).
      split_and!; [by apply wf_tally_credit|by apply tally_le_credit|].
      rewrite sum_values_credit by (done || by apply code_D_in). lia.
    - split_and!; [done|by apply tally_le_refl|lia]. }
  set (t1 := main_effect division pm t) in *.
  unfold strike_effect. destruct (strike && (1 <=? hits)) eqn:Hon.
  - apply andb_true_iff in Hon as [_ Hon]. apply Z.leb_le in Hon.
    pose proof (strike_payout_nonneg hits).
    split_and!; [by apply wf_tally_credit| |].
    + eapply tally_le_trans; [done|by apply tally_le_credit].
    + rewrite sum_values_credit by (done || apply code_S_in; lia). lia.
  - done.
Qed.


Lemma parsed_line_length content line :
  line ∈ parse_ticket_lines content -> length (nums line) = 6%nat.
Proof.
  unfold parse_ticket_lines. intros Hin.
  apply list_elem_of_omap in Hin as (raw & _ & Hp).
  apply parse_line_Some in Hp as (-> & Hlen & _).
  rewrite length_take. lia.
Qed.



Lemma zeroed_is_init (m : gmap string Z) :
  dom m = list_to_set codes ->
  (fun _ => 0) <$> m = list_to_map ((fun k => (k, 0)) <$> codes).
Proof.
  intros Hdom. apply map_eq. intros i. rewrite lookup_fmap.
  assert (((fun k : string => (k, 0)) <$> codes).*1 = codes) as Hfst
    by reflexivity.
  destruct (decide (i ∈ codes)) as [Hin|Hout].
  - assert (is_Some (m !! i)) as [v ->]
      by (apply elem_of_dom; rewrite Hdom; by apply elem_of_list_to_set).
    transitivity (Some 0); [done|].
    symmetry. apply elem_of_list_to_map_1.
    + rewrite Hfst. apply codes_NoDup.
    + apply list_elem_of_fmap. by exists i.
  - assert (m !! i = None) as ->
      by (apply not_elem_of_dom; rewrite Hdom;
          by rewrite elem_of_list_to_set).
    transitivity (@None Z); [done|].
    symmetry. apply not_elem_of_list_to_map_1. by rewrite Hfst.
Qed.

Lemma on_reset_init s :
  wf_tally (tally s) ->
  on_reset s = with_rng_calls (rng_calls s)
                 (set_status ResetComplete init_state).
Proof.
  intros [Hs Hp]. unfold on_reset. cbn [paid stats].
  rewrite (zeroed_is_init _ Hs), (zeroed_is_init _ Hp). reflexivity.
Qed.




















(** ** A draw cycle without ticket lines *)

(** C7. When the ticket text gives no valid line, a draw cycle changes the
    status message and nothing else: the draw counter, the count of calls
    made to the random source, the tally, [spend] and [returns] are what
    they were, and the outcome is the same for every random source. *)
Theorem draw_without_lines rng s :
  parse_ticket_lines (ticket_text s) = [] ->
  do_draw_once rng s = Some (set_status NoValidLines s)
  ∧ draw_number (set_status NoValidLines s) = draw_number s
  ∧ rng_calls (set_status NoValidLines s) = rng_calls s
  ∧ tally (set_status NoValidLines s) = tally s
  ∧ spend (set_status NoValidLines s) = spend s
  ∧ returns (set_status NoValidLines s) = returns s
  ∧ labels (set_status NoValidLines s) = labels s
  ∧ (forall rng', do_draw_once rng' s = do_draw_once rng s).
Proof.
  intros Hparse. unfold do_draw_once. rewrite Hparse. done.
Qed.

Lemma draw_without_lines_witness :
  parse_ticket_lines (ticket_text init_state) = []
  ∧ do_draw_once rng_first init_state
    = Some (set_status NoValidLines init_state).
Proof.
  split; [reflexivity|].
  exact (proj1 (draw_without_lines rng_first init_state eq_refl)).
Defined.

(** ** Reset *)

(** C8. After [on_reset], from any state with the eleven prize codes, the
    program is in its initial state but for the status message: every hit
    count and paid amount is 0, [spend], [returns] and so the balance are 0,
    the draw counter is 0, speed and the two toggles have their defaults,
    the ticket text is empty and gives no line, and the base numbers are
    gone. *)
Theorem reset_complete s :
  wf_tally (tally s) ->
  on_reset s
  = with_rng_calls (rng_calls s) (set_status ResetComplete init_state)
  ∧ (forall c, c ∈ codes ->
       stats (tally (on_reset s)) !! c = Some 0
       ∧ paid (tally (on_reset s)) !! c = Some 0)
  ∧ tally (on_reset s) = init_vars
  ∧ spend (on_reset s) = 0 ∧ returns (on_reset s) = 0
  ∧ returns (on_reset s) - spend (on_reset s) = 0
  ∧ draw_number (on_reset s) = 0
  ∧ speed_var (on_reset s) = DEFAULT_SPEED
  ∧ powerball_var (on_reset s) = false ∧ strike_var (on_reset s) = false
  ∧ ticket_text (on_reset s) = []
  ∧ parse_ticket_lines (ticket_text (on_reset s)) = []
  ∧ V (on_reset s) = [] ∧ base_numbers_var (on_reset s) = []
  ∧ running (on_reset s) = false ∧ after_id (on_reset s) = None.
Proof.
  intros Hwf. rewrite (on_reset_init s Hwf).
  split_and!; try reflexivity.
  intros c Hc. cbn [tally with_rng_calls set_status init_state].
  unfold codes in Hc. set_unfold in Hc. destruct_or!; subst c; done.
Qed.

Lemma reset_complete_witness :
  wf_tally (tally busy_state)
  ∧ on_reset busy_state
    = with_rng_calls 2 (set_status ResetComplete init_state).
Proof.
  assert (wf_tally (tally busy_state)) as Hwf
    by (apply wf_tally_credit, wf_tally_init).
  split; [exact Hwf|].
  exact (proj1 (reset_complete busy_state Hwf)).
Defined.

(** ** System wheels *)




Lemma merge_sort_length (l : list Z) : length (merge_sort Z.le l) = length l.
Proof. apply Permutation_length, merge_sort_Permutation. Qed.



(** ** Strings *)

Lemma plain_facts c :
  plain c = true ->
  Py.isspace c = false ∧ Py.islinebreak c = false
  ∧ Ascii.eqb c "009" = false ∧ Ascii.eqb c "|" = false
  ∧ Ascii.eqb c "," = false ∧ Ascii.eqb c "#" = false.
Proof.
  destruct c as [[] [] [] [] [] [] [] []]; vm_compute; intros H;
    try discriminate H; by split_and!.
Qed.

Lemma word_rev t : word t -> word (rev t).
Proof.
  intros [Hne Hall]. split.
  - intros Hr. apply Hne. by rewrite <- (rev_involutive t), Hr.
  - by apply Forall_rev.
Qed.

Lemma lstrip_word t r : word t -> Py.lstrip (t ++ r) = t ++ r.
Proof.
  intros [Hne Hall]. destruct t as [|c t]; [done|].
  apply Forall_cons in Hall as [Hc _].
  apply plain_facts in Hc as (Hc & _). simpl. by rewrite Hc.
Qed.

Lemma lstrip_spaces ws r :
  Forall (fun c => Py.isspace c = true) ws ->
  Py.lstrip (ws ++ r) = Py.lstrip r.
Proof.
  induction 1 as [|c ws Hc _ IH]; [done|]. simpl. by rewrite Hc.
Qed.

Lemma rstrip_word a t ws :
  word t -> Forall (fun c => Py.isspace c = true) ws ->
  Py.rstrip (a ++ t ++ ws) = a ++ t.
Proof.
  intros Ht Hws. unfold Py.rstrip.
  rewrite !rev_app_distr, <- app_assoc.
  rewrite lstrip_spaces by (by apply Forall_rev).
  rewrite lstrip_word by (by apply word_rev).
  by rewrite rev_app_distr, !rev_involutive.
Qed.

Lemma strip_words t1 mid t2 ws :
  word t1 -> word t2 -> Forall (fun c => Py.isspace c = true) ws ->
  Py.strip (t1 ++ mid ++ t2 ++ ws) = t1 ++ mid ++ t2.
Proof.
  intros H1 H2 Hws. unfold Py.strip. rewrite lstrip_word by done.
  rewrite (app_assoc t1 mid (t2 ++ ws)), rstrip_word by done.
  by rewrite <- app_assoc.
Qed.

Lemma splitlines_go_inline s : forall cur,
  Forall (fun c => Py.islinebreak c = false) s ->
  cur ++ s ≠ [] ->
  Py.splitlines_go false cur s = [cur ++ s].
Proof.
  induction s as [|c s IH]; intros cur Hall Hne.
  - rewrite app_nil_r in *. simpl. by destruct cur.
  - apply Forall_cons in Hall as [Hc Hall]. simpl. rewrite Hc.
    rewrite IH; [by rewrite <- app_assoc|done|].
    rewrite <- app_assoc. done.
Qed.

Lemma splitlines_inline s :
  s ≠ [] -> Forall (fun c => Py.islinebreak c = false) s ->
  Py.splitlines s = [s].
Proof. intros Hne Hall. by apply (splitlines_go_inline s []). Qed.

Lemma before_app sep l r :
  Forall (fun c => Ascii.eqb c sep = false) l ->
  Py.before sep (l ++ r) = l ++ Py.before sep r.
Proof.
  induction 1 as [|c l Hc _ IH]; [done|]. simpl. by rewrite Hc, IH.
Qed.

Lemma before_none sep l :
  Forall (fun c => Ascii.eqb c sep = false) l -> Py.before sep l = l.
Proof.
  intros H. rewrite <- (app_nil_r l) at 1.
  rewrite before_app by done. simpl. apply app_nil_r.
Qed.

Lemma replace_app a b l r :
  Py.replace a b (l ++ r) = Py.replace a b l ++ Py.replace a b r.
Proof. apply map_app. Qed.

Lemma replace_none a b l :
  Forall (fun c => Ascii.eqb c a = false) l -> Py.replace a b l = l.
Proof.
  induction 1 as [|c l Hc _ IH]; [done|].
  unfold Py.replace in *. simpl. by rewrite Hc, IH.
Qed.

Lemma split_go_word cur t r :
  word t -> Py.split_go cur (t ++ r) = Py.split_go (cur ++ t) r.
Proof.
  intros [_ Hall]. revert cur.
  induction Hall as [|c t Hc _ IH]; intros cur.
  - by rewrite app_nil_r.
  - apply plain_facts in Hc as (Hc & _). simpl. rewrite Hc, IH.
    by rewrite <- app_assoc.
Qed.

Lemma split_go_space cur c r :
  Py.isspace c = true ->
  Py.split_go cur (c :: r)
  = match cur with [] => [] | _ => [cur] end ++ Py.split_go [] r.
Proof. intros Hc. simpl. rewrite Hc. by destruct cur. Qed.

Lemma word_facts t :
  word t ->
  Forall (fun c => Py.islinebreak c = false) t
  ∧ Forall (fun c => Ascii.eqb c "009" = false) t
  ∧ Forall (fun c => Ascii.eqb c "|" = false) t
  ∧ Forall (fun c => Ascii.eqb c "," = false) t
  ∧ (forall r, Py.startswith (lit "#") (t ++ r) = false).
Proof.
  intros [Hne Hall]. split_and!.
  1-4: eapply Forall_impl; [exact Hall|];
       intros c Hc; by apply plain_facts in Hc as (?&?&?&?&?&?).
  intros r. destruct t as [|c t]; [done|].
  apply Forall_cons in Hall as [Hc _].
  apply plain_facts in Hc as (_&_&_&_&_&Hc).
  change (Ascii.eqb "#" c && true = false).
  by rewrite Ascii.eqb_sym, Hc.
Qed.

(** ** The text of a ticket line *)

Lemma z2_number n :
  1 <= n <= 40 ->
  word (z2 n) ∧ length (z2 n) = 2%nat
  ∧ Py.startswith (lit "PB") (Py.upper (z2 n)) = false
  ∧ Py.int (Py.upper (z2 n)) = Some n ∧ Py.int (z2 n) = Some n.
Proof.
  intros Hn.
  pose (check := fun n : Z =>
    bool_decide (z2 n ≠ []) && forallb plain (z2 n)
    && bool_decide (length (z2 n) = 2%nat)
    && negb (Py.startswith (lit "PB") (Py.upper (z2 n)))
    && bool_decide (Py.int (Py.upper (z2 n)) = Some n)
    && bool_decide (Py.int (z2 n) = Some n)).
  assert (forallb check (seqZ 1 40) = true) as Hall by (by vm_compute).
  rewrite forallb_forall in Hall.
  specialize (Hall n). rewrite <- list_elem_of_In, elem_of_seqZ in Hall.
  specialize (Hall ltac:(lia)). unfold check in Hall.
  repeat (apply andb_true_iff in Hall as [Hall ?]).
  split_and!.
  - split; [by eapply bool_decide_eq_true_1|].
    apply Forall_forall. intros c Hc.
    by eapply forallb_forall; [eassumption|apply list_elem_of_In].
  - by eapply bool_decide_eq_true_1.
  - by apply negb_true_iff.
  - by eapply bool_decide_eq_true_1.
  - by eapply bool_decide_eq_true_1.
Qed.

Lemma scan_number t n rest acc p :
  Py.startswith (lit "PB") (Py.upper t) = false ->
  Py.int (Py.upper t) = Some n ->
  scan_tokens (t :: rest) acc p = scan_tokens rest (acc ++ [n]) p.
Proof. intros H1 H2. cbn [scan_tokens]. by rewrite H1, H2. Qed.

Lemma scan_pb tv v rest acc p :
  Py.int tv = Some v ->
  scan_tokens (lit "PB" :: tv :: rest) acc p = scan_tokens rest acc (Some v).
Proof. intros H. cbn [scan_tokens]. by rewrite H. Qed.

Lemma filter_all {A} (P : A -> Prop) `{!forall x, Decision (P x)} l :
  Forall P l -> filter P l = l.
Proof.
  induction 1 as [|x l Hx _ IH]; [done|].
  by rewrite filter_cons_True, IH.
Qed.

(** Parsing a widget that holds one line of text [line], whose first and
    last tokens are [t1] and [t2] and whose part before the first tab is
    [left]. *)
Lemma parse_one_line line t1 mid t2 left ns p :
  line = t1 ++ mid ++ t2 -> word t1 -> word t2 ->
  Forall (fun c => Py.islinebreak c = false) line ->
  Py.before "009" line = left ->
  scan_tokens (Py.split (Py.replace "," " " (Py.replace "|" " " left)))
    [] None = (ns, p) ->
  length ns = 6%nat -> Forall (fun n => 1 <= n <= 40) ns ->
  from_option (fun v => 1 <= v <= 10) True p ->
  parse_ticket_lines (line ++ ["010"%char]) = [{| nums := ns; pb := p |}].
Proof.
  intros Hline H1 H2 Hinline Hleft Hscan Hlen Hrange Hp.
  assert (line ≠ []) as Hne.
  { subst line. destruct H1 as [Hne _]. by destruct t1. }
  assert (Py.strip ((line ++ ["010"%char]) ++ ["010"%char]) = line) as Hs2.
  { rewrite Hline, <- !app_assoc. apply strip_words; try done.
    by repeat constructor. }
  assert (Py.strip line = line) as Hs0.
  { rewrite Hline at 1. rewrite <- (app_nil_r t2).
    rewrite strip_words by done. by rewrite Hline. }
  assert (Py.startswith (lit "#") line = false) as Hhash.
  { rewrite Hline. by apply word_facts. }
  unfold parse_ticket_lines, text_get. rewrite Hs2.
  rewrite splitlines_inline by done.
  cbn [omap list_omap]. unfold parse_line.
  rewrite Hs0, Hhash, Hleft, Hscan.
  rewrite bool_decide_eq_false_2 by done. cbn [orb].
  rewrite filter_all by done. rewrite take_ge by lia.
  rewrite Hlen. cbn [Nat.ltb Nat.leb].
  destruct p as [v|]; [|done]. simpl in Hp.
  by rewrite bool_decide_eq_true_2.
Qed.

Ltac chars :=
  rewrite ?Forall_app; split_and?;
  first [ by repeat constructor
        | match goal with H : word ?t |- Forall _ ?t =>
            by (destruct (word_facts t H) as (?&?&?&?&?))
          end ].

Lemma split_go_end cur : cur ≠ [] -> Py.split_go cur [] = [cur].
Proof. by destruct cur. Qed.

Lemma word_PB : word (lit "PB").
Proof. split; [done|by repeat constructor]. Qed.

(** The tokens of six words separated by single spaces, up to the last
    word, which what follows may still extend. *)
Lemma left_tokens t1 t2 t3 t4 t5 t6 sfx :
  word t1 -> word t2 -> word t3 -> word t4 -> word t5 -> word t6 ->
  Py.split (Py.replace "," " " (Py.replace "|" " "
     ((t1 ++ lit " " ++ t2 ++ lit " " ++ t3 ++ lit " " ++ t4 ++ lit " "
         ++ t5 ++ lit " " ++ t6) ++ sfx)))
  = [t1; t2; t3; t4; t5]
    ++ Py.split_go t6 (Py.replace "," " " (Py.replace "|" " " sfx)).
Proof.
  intros H1 H2 H3 H4 H5 H6.
  rewrite !replace_app.
  rewrite !(replace_none "|") by chars.
  rewrite !(replace_none ",") by chars.
  unfold Py.split. rewrite <- !app_assoc.
  change (lit " ") with [" "%char]. cbn [app].
  repeat (rewrite split_go_word by done; cbn [app];
          rewrite split_go_space by done).
  rewrite split_go_word by done. cbn [app].
  destruct H1 as [? _], H2 as [? _], H3 as [? _], H4 as [? _], H5 as [? _].
  by destruct t1, t2, t3, t4, t5.
Qed.

(** The tokens the [| PB NN] suffix adds. *)
Lemma suffix_tokens t6 tv :
  word t6 -> word tv ->
  Py.split_go t6 (Py.replace "," " " (Py.replace "|" " "
                    (lit " | PB " ++ tv)))
  = [t6; lit "PB"; tv].
Proof.
  intros H6 Hv.
  rewrite !replace_app.
  rewrite !(replace_none _ _ tv) by chars.
  change (Py.replace "," " " (Py.replace "|" " " (lit " | PB ")))
    with (lit "   " ++ lit "PB" ++ lit " ").
  change (lit "   ") with [" "; " "; " "]%char.
  change (lit " ") with [" "%char]. rewrite <- !app_assoc. cbn [app].
  rewrite !split_go_space by done.
  rewrite (split_go_word [] (lit "PB")) by apply word_PB.
  rewrite split_go_space by done.
  rewrite <- (app_nil_r tv) at 1. rewrite split_go_word by done.
  rewrite split_go_end by (by destruct Hv as [? _]; destruct tv).
  destruct H6 as [? _]. by destruct t6.
Qed.

Lemma scan_z2 n rest acc p :
  1 <= n <= 40 ->
  scan_tokens (z2 n :: rest) acc p = scan_tokens rest (acc ++ [n]) p.
Proof.
  intros Hn. destruct (z2_number n Hn) as (_ & _ & H1 & H2 & _).
  by apply scan_number.
Qed.

Lemma scan_emitted ns p :
  length ns = 6%nat -> Forall (fun n => 1 <= n <= 40) ns ->
  from_option (fun v => 1 <= v <= 10) True p ->
  scan_tokens ((z2 <$> ns)
               ++ match p with
                  | Some v => [lit "PB"; z2 v]
                  | None => []
                  end) [] None
  = (ns, p).
Proof.
  intros Hlen Hall Hp.
  do 7 (destruct ns as [|? ns]; try done).
  repeat match goal with
  | H : Forall _ (_ :: _) |- _ => apply Forall_cons in H as [? H]
  end.
  cbn [fmap list_fmap app].
  rewrite !scan_z2 by done. cbn [app].
  destruct p as [v|]; [|done]. simpl in Hp.
  rewrite scan_pb with (v := v) by (apply z2_number; lia). done.
Qed.


(** The text of six words, an optional [PB] word and an optional side-bet
    column parses to what the loop over its tokens collects. *)
Lemma parse_columns t1 t2 t3 t4 t5 t6 (tv : option str) (strike : bool)
    ns p :
  word t1 -> word t2 -> word t3 -> word t4 -> word t5 -> word t6 ->
  from_option word True tv ->
  scan_tokens ([t1; t2; t3; t4; t5; t6]
               ++ match tv with Some t => [lit "PB"; t] | None => [] end)
    [] None = (ns, p) ->
  length ns = 6%nat -> Forall (fun n => 1 <= n <= 40) ns ->
  from_option (fun v => 1 <= v <= 10) True p ->
  let sp := lit " " in
  let body :=
    t1 ++ sp ++ t2 ++ sp ++ t3 ++ sp ++ t4 ++ sp ++ t5 ++ sp ++ t6 in
  let left :=
    body ++ match tv with Some t => lit " | PB " ++ t | None => [] end in
  parse_ticket_lines
    (if strike
     then left ++ ["009"%char] ++ (t1 ++ sp ++ t2 ++ sp ++ t3 ++ sp ++ t4)
               ++ ["010"%char]
     else left ++ ["010"%char])
  = [{| nums := ns; pb := p |}].
Proof.
  intros H1 H2 H3 H4 H5 H6 Hv Hscan Hlen Hall Hp sp body left.
  assert (Forall (fun c => Py.islinebreak c = false) sp
          ∧ Forall (fun c => Ascii.eqb c "009" = false) sp) as [Hsp1 Hsp2]
    by (split; by repeat constructor).
  assert (Forall (fun c => Py.islinebreak c = false) body
          ∧ Forall (fun c => Ascii.eqb c "009" = false) body) as [Hb1 Hb2].
  { subst body. clearbody sp. split; chars. }
  assert (Forall (fun c => Py.islinebreak c = false) left
          ∧ Forall (fun c => Ascii.eqb c "009" = false) left) as [Hl1 Hl2].
  { subst left. clearbody body.
    destruct tv as [t|]; simpl in Hv; [|by rewrite app_nil_r].
    split; rewrite !Forall_app; split_and!; try done;
      first [by repeat constructor | chars]. }
  assert (Py.split (Py.replace "," " " (Py.replace "|" " " left))
          = [t1; t2; t3; t4; t5; t6]
            ++ match tv with Some t => [lit "PB"; t] | None => [] end)
    as Htok.
  { subst left body sp. rewrite left_tokens by done.
    destruct tv as [t|]; simpl in Hv.
    - by rewrite suffix_tokens.
    - cbn [Py.replace map]. by rewrite split_go_end by (by destruct H6). }
  assert (exists mid t, word t ∧ left = t1 ++ mid ++ t) as (mid & tl & Hw & Hmid).
  { subst left body. clearbody sp. destruct tv as [t|]; simpl in Hv.
    - exists (sp ++ t2 ++ sp ++ t3 ++ sp ++ t4 ++ sp ++ t5 ++ sp ++ t6
              ++ lit " | PB "), t.
      split; [done|]. by rewrite <- !app_assoc.
    - exists (sp ++ t2 ++ sp ++ t3 ++ sp ++ t4 ++ sp ++ t5 ++ sp), t6.
      split; [done|]. by rewrite app_nil_r, <- !app_assoc. }
  rewrite <- Htok in Hscan. clearbody left body sp.
  destruct strike.
  - rewrite !app_assoc.
    apply (parse_one_line _ t1
             (mid ++ tl ++ ["009"%char] ++ t1 ++ sp ++ t2 ++ sp ++ t3 ++ sp)
             t4 left); try done.
    + rewrite Hmid, <- !app_assoc. done.
    + rewrite <- !app_assoc, !Forall_app. split_and!; try done; try chars.
    + rewrite <- !app_assoc. rewrite before_app by done.
      cbn [app Py.before]. rewrite Ascii.eqb_refl. apply app_nil_r.
  - apply (parse_one_line _ t1 mid tl left); try done.
    by apply before_none.
Qed.

(** The text [add_ticket_line] inserts for a line with six numbers from 1 to
    40 parses back to the line, with or without the side-bet column. *)
Lemma parse_emitted ns p strike :
  length ns = 6%nat -> Forall (fun n => 1 <= n <= 40) ns ->
  from_option (fun v => 1 <= v <= 10) True p ->
  parse_ticket_lines (ticket_line_text ns p strike)
  = [{| nums := ns; pb := p |}].
Proof.
  intros Hlen Hall Hp.
  pose proof (scan_emitted ns p Hlen Hall Hp) as Hscan.
  destruct ns as [|n1 [|n2 [|n3 [|n4 [|n5 [|n6 [|n7 ns]]]]]]];
    try discriminate Hlen.
  pose proof Hall as Hw.
  apply Forall_cons in Hw as [H1 Hw]. apply Forall_cons in Hw as [H2 Hw].
  apply Forall_cons in Hw as [H3 Hw]. apply Forall_cons in Hw as [H4 Hw].
  apply Forall_cons in Hw as [H5 Hw]. apply Forall_cons in Hw as [H6 _].
  apply z2_number in H1 as (H1 & _), H2 as (H2 & _), H3 as (H3 & _),
    H4 as (H4 & _), H5 as (H5 & _), H6 as (H6 & _).
  pose proof (parse_columns (z2 n1) (z2 n2) (z2 n3) (z2 n4) (z2 n5) (z2 n6)
                (z2 <$> p) strike [n1; n2; n3; n4; n5; n6] p
                H1 H2 H3 H4 H5 H6) as Hcols.
  cbv zeta in Hcols. unfold ticket_line_text.
  cbn [fmap list_fmap take Py.join].
  destruct p as [v|].
  - apply Hcols; try assumption.
    exact (proj1 (z2_number v ltac:(simpl in Hp; lia))).
  - apply Hcols; try assumption; exact I.
Qed.

(** C9. Adding a valid line to an empty ticket and parsing the ticket gives
    that line back and nothing else, with the same numbers in the same
    order and the same supplementary number, whether or not the side-bet
    column is written.  Each number is written with exactly two
    characters. *)
Theorem add_ticket_line_round_trip line s :
  valid_line line -> ticket_text s = [] ->
  parse_ticket_lines (ticket_text (add_ticket_line (nums line) (pb line) s))
  = [line]
  ∧ Forall (fun n => length (z2 n) = 2%nat) (nums line)
  ∧ from_option (fun v => length (z2 v) = 2%nat) True (pb line).
Proof.
  intros (Hlen & _ & Hall & Hpb) Hempty. split_and!.
  - unfold add_ticket_line. cbn [ticket_text with_ticket_text].
    rewrite Hempty, app_nil_l.
    rewrite parse_emitted; [by destruct line|done|done|].
    destruct (pb line) as [v|]; [|done]. by apply Hpb.
  - eapply Forall_impl; [exact Hall|]. intros n Hn. by apply z2_number.
  - destruct (pb line) as [v|]; [|done]. simpl.
    apply z2_number. specialize (Hpb v eq_refl). lia.
Qed.

Lemma add_ticket_line_round_trip_witness :
  valid_line line_all_six ∧ ticket_text init_state = []
  ∧ parse_ticket_lines
      (ticket_text (add_ticket_line (nums line_all_six) (pb line_all_six)
                      init_state))
    = [line_all_six].
Proof.
  assert (valid_line line_all_six) as Hl
    by (apply valid_line_intro; compute_done).
  split; [exact Hl|]. split; [reflexivity|].
  exact (proj1 (add_ticket_line_round_trip line_all_six init_state Hl
                  eq_refl)).
Defined.

(** * Further properties of the scoring code *)

Lemma count_main_perm ns ns' ms ms' :
  Permutation ns ns' -> Permutation ms ms' ->
  count_main ns ms = count_main ns' ms'.
Proof.
  intros Hns Hms. unfold count_main.
  rewrite (list_filter_iff (fun x => x ∈ ms) (fun x => x ∈ ms') ns)
    by (intros x; by rewrite Hms).
  by rewrite Hns.
Qed.

(** X1. The main game does not look at order: with the side bet off,
    scoring a line gives the same cost and the same tally when the numbers
    of the line are typed in another order and when the main numbers are
    drawn in another order.  The side bet does look at it: the two
    orders of one line can differ in their side-bet hits. *)
Theorem main_game_unordered ns ns' ms ms' p bonus pbd t :
  Permutation ns ns' -> Permutation ms ms' ->
  score_line_against_draw {| nums := ns; pb := p |} ms bonus pbd false t
  = score_line_against_draw {| nums := ns'; pb := p |} ms' bonus pbd false t
  ∧ positional_hits [1; 2; 3; 4; 5; 6] [1; 2; 3; 4; 5; 6]
    ≠ positional_hits [6; 5; 4; 3; 2; 1] [1; 2; 3; 4; 5; 6].
Proof.
  intros Hns Hms. split; [|by vm_compute].
  unfold score_line_against_draw, pb_matched, line_cost. cbn [nums pb].
  rewrite (count_main_perm ns ns' ms ms') by done.
  rewrite (bool_decide_ext (bonus ∈ ns) (bonus ∈ ns')) by (by rewrite Hns).
  done.
Qed.

Lemma main_game_unordered_witness :
  Permutation [1; 2; 3; 40; 39; 38] [38; 39; 40; 3; 2; 1]
  ∧ Permutation [1; 2; 3; 4; 5; 6] [6; 1; 5; 2; 4; 3]
  ∧ score_line_against_draw {| nums := [1; 2; 3; 40; 39; 38]; pb := None |}
      [1; 2; 3; 4; 5; 6] 7 3 false init_vars
    = score_line_against_draw {| nums := [38; 39; 40; 3; 2; 1]; pb := None |}
        [6; 1; 5; 2; 4; 3] 7 3 false init_vars.
Proof.
  assert (Permutation [1; 2; 3; 40; 39; 38] [38; 39; 40; 3; 2; 1]) as H1
    by compute_done.
  assert (Permutation [1; 2; 3; 4; 5; 6] [6; 1; 5; 2; 4; 3]) as H2
    by compute_done.
  split; [exact H1|]. split; [exact H2|].
  exact (proj1 (main_game_unordered _ _ _ _ None 7 3 init_vars H1 H2)).
Defined.

Lemma code_D_in_inv d : code_D d ∈ codes -> 1 <= d <= 7.
Proof.
  unfold codes. intros H. set_unfold in H.
  destruct_or!;
    first [ change (code_D d = code_D 1) in H
          | change (code_D d = code_D 2) in H
          | change (code_D d = code_D 3) in H
          | change (code_D d = code_D 4) in H
          | change (code_D d = code_D 5) in H
          | change (code_D d = code_D 6) in H
          | change (code_D d = code_D 7) in H
          | idtac ];
    first [ apply code_D_inj in H; lia
          | exfalso; unfold code_D in H; discriminate H ].
Qed.

Lemma code_S_in_inv h : code_S h ∈ codes -> 1 <= h <= 4.
Proof.
  unfold codes. intros H. set_unfold in H.
  destruct_or!;
    first [ change (code_S h = code_S 1) in H
          | change (code_S h = code_S 2) in H
          | change (code_S h = code_S 3) in H
          | change (code_S h = code_S 4) in H
          | idtac ];
    first [ apply code_S_inj in H; lia
          | exfalso; unfold code_S in H; discriminate H ].
Qed.

(** X2. On a tally with the eleven prize codes, [award_lotto] goes through
    exactly for the divisions 1 to 7 and [award_strike] exactly for 1 to 4
    hits; for any other number the look-up of the code fails (the
    [KeyError]), also for 0 and for negative numbers, where the index into
    the payout table would have wrapped around. *)
Theorem award_domain t :
  wf_tally t ->
  (forall d pm, is_Some (award_lotto d pm t) <-> 1 <= d <= 7)
  ∧ (forall h, is_Some (award_strike h t) <-> 1 <= h <= 4)
  ∧ is_Some (Py.index LOTTO_NO_PB (0 - 1))
  ∧ award_lotto 0 false t = None.
Proof.
  intros Hwf.
  assert (forall d pm, is_Some (award_lotto d pm t) <-> 1 <= d <= 7) as Hl.
  { intros d pm. split.
    - intros [t' Ht']. apply code_D_in_inv.
      destruct Hwf as [Hs _]. apply (elem_of_list_to_set (C := gset string)).
      rewrite <- Hs. apply elem_of_dom.
      unfold award_lotto in Ht'.
      destruct (Py.index _ _); [|done]. simpl in Ht'.
      destruct (stats t !! code_D d); [by eexists|done].
    - intros Hd. rewrite award_lotto_credit by done. by eexists. }
  split_and!; [exact Hl| |by eexists|].
  - intros h. split.
    + intros [t' Ht']. apply code_S_in_inv.
      destruct Hwf as [Hs _]. apply (elem_of_list_to_set (C := gset string)).
      rewrite <- Hs. apply elem_of_dom.
      unfold award_strike in Ht'.
      destruct (stats t !! code_S h); [by eexists|done].
    + intros Hh. rewrite award_strike_credit by done. by eexists.
  - destruct (award_lotto 0 false t) eqn:H0; [|done].
    assert (is_Some (award_lotto 0 false t)) as Hs by (by eexists).
    apply Hl in Hs. lia.
Qed.

Lemma award_domain_witness :
  wf_tally init_vars
  ∧ award_lotto 0 false init_vars = None
  ∧ award_strike 5 init_vars = None.
Proof.
  pose proof wf_tally_init as Hwf. split; [exact Hwf|].
  destruct (award_domain init_vars Hwf) as (_ & Hs & _ & H0).
  split; [exact H0|].
  destruct (award_strike 5 init_vars) eqn:H5; [|reflexivity].
  assert (is_Some (award_strike 5 init_vars)) as Hsome by (by eexists).
  apply Hs in Hsome. lia.
Defined.

Lemma count_main_cons x ns ms :
  count_main (x :: ns) ms
  = ((if bool_decide (x ∈ ms) then 1 else 0) + count_main ns ms)%nat.
Proof.
  unfold count_main. rewrite filter_cons.
  case_decide; case_bool_decide; done.
Qed.

Lemma length_filter_cons (P : nat -> Prop) `{!forall i, Decision (P i)}
    i l :
  length (filter P (i :: l))
  = ((if decide (P i) then 1 else 0) + length (filter P l))%nat.
Proof. rewrite filter_cons. by case_decide. Qed.

Lemma decide_Some_eq (a b : Z) :
  (if decide (Some a = Some b) then 1 else 0)%nat
  = (if bool_decide (a = b) then 1 else 0)%nat.
Proof. case_decide; case_bool_decide; congruence. Qed.

Lemma positional_hits_sum a0 a1 a2 a3 ns b0 b1 b2 b3 ms :
  positional_hits (a0 :: a1 :: a2 :: a3 :: ns) (b0 :: b1 :: b2 :: b3 :: ms)
  = (if bool_decide (a0 = b0) then 1 else 0)
    + (if bool_decide (a1 = b1) then 1 else 0)
    + (if bool_decide (a2 = b2) then 1 else 0)
    + (if bool_decide (a3 = b3) then 1 else 0).
Proof.
  unfold positional_hits. cbn [seq].
  rewrite !length_filter_cons, filter_nil. cbn [lookup list_lookup length].
  rewrite !decide_Some_eq.
  destruct (bool_decide (a0 = b0)), (bool_decide (a1 = b1)),
    (bool_decide (a2 = b2)), (bool_decide (a3 = b3)); reflexivity.
Qed.

Lemma hit_is_match (a b : Z) (ms : list Z) :
  b ∈ ms ->
  (if bool_decide (a = b) then 1 else 0)
  <= Z.of_nat (if bool_decide (a ∈ ms) then 1 else 0).
Proof.
  intros Hb. case_bool_decide as Hab.
  - subst. by rewrite bool_decide_eq_true_2.
  - case_bool_decide; simpl; lia.
Qed.

Lemma positional_hits_le_count ns ms :
  (4 <= length ns)%nat -> (4 <= length ms)%nat ->
  positional_hits ns ms <= Z.of_nat (count_main ns ms).
Proof.
  intros Hn Hm.
  destruct ns as [|a0 [|a1 [|a2 [|a3 ns]]]]; simpl in Hn; try lia.
  destruct ms as [|b0 [|b1 [|b2 [|b3 ms]]]]; simpl in Hm; try lia.
  rewrite positional_hits_sum, !count_main_cons.
  set (full := b0 :: b1 :: b2 :: b3 :: ms).
  pose proof (hit_is_match a0 b0 full ltac:(set_solver)).
  pose proof (hit_is_match a1 b1 full ltac:(set_solver)).
  pose proof (hit_is_match a2 b2 full ltac:(set_solver)).
  pose proof (hit_is_match a3 b3 full ltac:(set_solver)).
  lia.
Qed.

Lemma count_main_le ns ms : (count_main ns ms <= length ns)%nat.
Proof. apply length_filter. Qed.

(** X3. A side-bet win of the two upper tiers never comes alone: a line with
    three or four positional hits has at least that many of its numbers
    among the main numbers, so scoring it also credits one main-game
    division.  In general the hits never exceed the main-game match
    count. *)
Theorem side_bet_implies_division line ms bonus pbd t :
  length (nums line) = 6%nat -> length ms = 6%nat -> wf_tally t ->
  positional_hits (nums line) ms <= Z.of_nat (count_main (nums line) ms)
  ∧ (3 <= positional_hits (nums line) ms ->
     exists t' k,
       score_line_against_draw line ms bonus pbd true t
       = Some (line_cost line true, t')
       ∧ 1 <= k <= 7
       ∧ stats t' !! code_D k = (fun n => n + 1) <$> stats t !! code_D k).
Proof.
  intros Hlen Hlen' Hwf.
  pose proof (positional_hits_le_count (nums line) ms ltac:(lia) ltac:(lia))
    as Hle.
  split; [exact Hle|]. intros Hhits.
  pose proof (count_main_le (nums line) ms) as Hmax.
  rewrite score_line_credit by (done || intros _; lia).
  set (m := count_main (nums line) ms) in *.
  set (b := bool_decide (bonus ∈ nums line)).
  assert (exists k, division_of m b = Some k ∧ 1 <= k <= 7) as (k & Hk & Hr).
  { assert (m = 3 ∨ m = 4 ∨ m = 5 ∨ m = 6)%nat as Hm by lia.
    clearbody m.
    destruct Hm as [Hm|[Hm|[Hm|Hm]]]; subst m; destruct b; by eexists. }
  eexists _, k. split; [done|]. split; [done|].
  destruct (lookup_strike_effect_D true (positional_hits (nums line) ms)
              (main_effect (division_of m b) (pb_matched line pbd) t) k)
    as [-> _].
  rewrite Hk.
  destruct (lookup_main_effect (Some k) (pb_matched line pbd) t k) as [-> _].
  by rewrite bool_decide_eq_true_2.
Qed.

Lemma side_bet_implies_division_witness :
  length (nums {| nums := [1; 2; 3; 10; 11; 12]; pb := None |}) = 6%nat
  ∧ length [1; 2; 3; 4; 5; 6] = 6%nat ∧ wf_tally init_vars
  ∧ 3 <= positional_hits [1; 2; 3; 10; 11; 12] [1; 2; 3; 4; 5; 6]
  ∧ exists t' k,
      score_line_against_draw {| nums := [1; 2; 3; 10; 11; 12]; pb := None |}
        [1; 2; 3; 4; 5; 6] 7 3 true init_vars = Some (170, t')
      ∧ 1 <= k <= 7
      ∧ stats t' !! code_D k
        = (fun n => n + 1) <$> stats init_vars !! code_D k.
Proof.
  pose proof wf_tally_init as Hwf.
  assert (3 <= positional_hits [1; 2; 3; 10; 11; 12] [1; 2; 3; 4; 5; 6])
    as Hhits by (by vm_compute).
  split; [reflexivity|]. split; [reflexivity|]. split; [exact Hwf|].
  split; [exact Hhits|].
  exact (proj2 (side_bet_implies_division
                  {| nums := [1; 2; 3; 10; 11; 12]; pb := None |}
                  [1; 2; 3; 4; 5; 6] 7 3 init_vars eq_refl eq_refl Hwf)
           Hhits).
Defined.

(** X4. Matches are counted per position of the line, not per distinct
    value: a line whose six numbers all occur among the main numbers is
    credited Division 1 even when it repeats numbers, and such lines get
    through the parser.  One drawn number typed six times wins the first
    division. *)
Theorem repeated_numbers_win line ms bonus pbd strike t :
  length (nums line) = 6%nat -> (4 <= length ms)%nat ->
  Forall (fun x => x ∈ ms) (nums line) -> wf_tally t ->
  (exists t',
     score_line_against_draw line ms bonus pbd strike t
     = Some (line_cost line strike, t')
     ∧ stats t' !! code_D 1 = (fun n => n + 1) <$> stats t !! code_D 1
     ∧ paid t' !! code_D 1
       = (fun p => p + lotto_payout 1 (pb_matched line pbd))
           <$> paid t !! code_D 1)
  ∧ (forall x, 1 <= x <= 40 ->
       parse_ticket_lines (ticket_line_text [x; x; x; x; x; x] None false)
       = [{| nums := [x; x; x; x; x; x]; pb := None |}]).
Proof.
  intros Hlen Hms Hall Hwf. split.
  - rewrite score_line_credit by (done || intros _; lia).
    assert (count_main (nums line) ms = 6%nat) as ->.
    { unfold count_main. by rewrite filter_all. }
    eexists. split; [done|].
    destruct (lookup_strike_effect_D strike
                (positional_hits (nums line) ms)
                (main_effect
                   (division_of 6 (bool_decide (bonus ∈ nums line)))
                   (pb_matched line pbd) t) 1) as [-> ->].
    change (division_of 6 (bool_decide (bonus ∈ nums line)))
      with (Some 1).
    destruct (lookup_main_effect (Some 1) (pb_matched line pbd) t 1)
      as [-> ->].
    by rewrite !bool_decide_eq_true_2.
  - intros x Hx. apply parse_emitted; [done| |done].
    repeat (apply Forall_cons; split; [exact Hx|]). apply Forall_nil_2.
Qed.

Lemma repeated_numbers_win_witness :
  length (nums {| nums := [4; 4; 4; 4; 4; 4]; pb := None |}) = 6%nat
  ∧ (4 <= length [1; 2; 3; 4; 5; 6])%nat
  ∧ Forall (fun x => x ∈ [1; 2; 3; 4; 5; 6]) [4; 4; 4; 4; 4; 4]
  ∧ wf_tally init_vars
  ∧ exists t',
      score_line_against_draw {| nums := [4; 4; 4; 4; 4; 4]; pb := None |}
        [1; 2; 3; 4; 5; 6] 7 3 false init_vars = Some (70, t')
      ∧ stats t' !! code_D 1 = Some 1
      ∧ paid t' !! code_D 1 = Some 100000000.
Proof.
  pose proof wf_tally_init as Hwf.
  assert (4 <= length [1; 2; 3; 4; 5; 6])%nat as Hms by (simpl; lia).
  assert (Forall (fun x => x ∈ [1; 2; 3; 4; 5; 6]) [4; 4; 4; 4; 4; 4])
    as Hall by compute_done.
  split; [reflexivity|]. split; [exact Hms|]. split; [exact Hall|].
  split; [exact Hwf|].
  destruct (repeated_numbers_win
              {| nums := [4; 4; 4; 4; 4; 4]; pb := None |}
              [1; 2; 3; 4; 5; 6] 7 3 false init_vars eq_refl Hms Hall Hwf)
    as ((t' & Hs & H1 & H2) & _).
  exists t'. split; [exact Hs|]. rewrite H1, H2. by split.
Defined.

(** X5. The side bet and the main game do not touch each other's awards:
    scoring a line with the side bet on gives the tally of scoring it with
    the side bet off plus the side-bet award, costs exactly 1.00 more, and
    leaves every division's hit count and paid amount as without it. *)
Theorem side_bet_independent line ms bonus pbd t :
  (4 <= length (nums line))%nat -> (4 <= length ms)%nat -> wf_tally t ->
  exists t0 t1,
    score_line_against_draw line ms bonus pbd false t
    = Some (line_cost line false, t0)
    ∧ score_line_against_draw line ms bonus pbd true t
      = Some (line_cost line false + COST_STRIKE, t1)
    ∧ t1 = strike_effect true (positional_hits (nums line) ms) t0
    ∧ (forall k, stats t1 !! code_D k = stats t0 !! code_D k
                 ∧ paid t1 !! code_D k = paid t0 !! code_D k)
    ∧ (forall k, stats t0 !! code_S k = stats t !! code_S k
                 ∧ paid t0 !! code_S k = paid t !! code_S k).
Proof.
  intros Hn Hm Hwf.
  rewrite !score_line_credit by (done || intros; done).
  eexists _, _. split; [done|]. split.
  { unfold line_cost. by rewrite Z.add_0_r. }
  split; [done|]. split.
  - intros k. apply lookup_strike_effect_D.
  - intros k. apply lookup_main_effect_S.
Qed.

Lemma side_bet_independent_witness :
  (4 <= length (nums line_two_in_place))%nat
  ∧ (4 <= length (main6 draw_1_to_6))%nat ∧ wf_tally init_vars
  ∧ exists t0 t1,
      score_line_against_draw line_two_in_place (main6 draw_1_to_6) 7 3
        false init_vars = Some (150, t0)
      ∧ score_line_against_draw line_two_in_place (main6 draw_1_to_6) 7 3
          true init_vars = Some (250, t1).
Proof.
  pose proof wf_tally_init as Hwf.
  assert (4 <= length (nums line_two_in_place))%nat as Hn by (simpl; lia).
  assert (4 <= length (main6 draw_1_to_6))%nat as Hm by (simpl; lia).
  split; [exact Hn|]. split; [exact Hm|]. split; [exact Hwf|].
  destruct (side_bet_independent line_two_in_place (main6 draw_1_to_6) 7 3
              init_vars Hn Hm Hwf) as (t0 & t1 & H0 & H1 & _).
  exists t0, t1. split; [exact H0|exact H1].
Defined.

(** * Further properties of the draw cycle *)

Lemma score_lines_fold lines d strike : forall total t,
  wf_tally t -> (4 <= length (main6 d))%nat ->
  Forall (fun line => (4 <= length (nums line))%nat) lines ->
  score_lines lines d strike total t
  = Some (total + total_cost lines strike,
          foldl (line_effect d strike) t lines).
Proof.
  induction lines as [|line rest IH]; intros total t Hwf Hm Hall.
  { simpl. by rewrite Z.add_0_r. }
  apply Forall_cons in Hall as [Hline Hrest].
  cbn [score_lines]. rewrite score_line_credit by done.
  cbn [mbind option_bind fst snd].
  rewrite IH; [|by apply wf_tally_effects|done|done].
  cbn [total_cost foldr foldl]. fold (total_cost rest strike).
  unfold line_effect at 2.
  by rewrite Z.add_assoc.
Qed.

Lemma total_cost_bounds lines strike :
  70 * Z.of_nat (length lines) <= total_cost lines strike
  <= 250 * Z.of_nat (length lines).
Proof.
  induction lines as [|line rest IH]; [simpl; lia|].
  cbn [total_cost foldr length]. fold (total_cost rest strike).
  unfold line_cost, COST_LOTTO_PB, COST_LOTTO_ONLY, COST_STRIKE.
  destruct (pb line), strike; lia.
Qed.

Lemma wf_tally_fold d strike lines : forall t,
  wf_tally t -> wf_tally (foldl (line_effect d strike) t lines).
Proof.
  induction lines as [|line rest IH]; intros t Hwf; [done|].
  simpl. apply IH. by apply wf_tally_effects.
Qed.

Lemma parsed_lines_long content :
  Forall (fun line => (4 <= length (nums line))%nat)
    (parse_ticket_lines content).
Proof.
  apply Forall_forall. intros line Hin.
  apply parsed_line_length in Hin. lia.
Qed.

(** X6. A draw cycle over a ticket with at least one valid line makes one
    draw (two calls of the random source), counts one more draw, charges
    every parsed line its cost whatever the line wins -- between 0.70 and
    2.50 a line -- applies the awards of the lines in ticket order, sets
    [returns] to the sum of the paid amounts, and leaves the ticket text,
    the controls and the base numbers alone. *)
Theorem draw_cycle_accounting rng s :
  RngLaws rng -> wf_tally (tally s) ->
  parse_ticket_lines (ticket_text s) ≠ [] ->
  let lines := parse_ticket_lines (ticket_text s) in
  exists d s',
    draw_lotto rng (rng_calls s) = Some d ∧ valid_draw d
    ∧ do_draw_once rng s = Some s'
    ∧ draw_number s' = draw_number s + 1
    ∧ rng_calls s' = S (S (rng_calls s))
    ∧ spend s' = spend s + total_cost lines (strike_var s)
    ∧ 70 * Z.of_nat (length lines) <= spend s' - spend s
      <= 250 * Z.of_nat (length lines)
    ∧ tally s' = foldl (line_effect d (strike_var s)) (tally s) lines
    ∧ returns s' = sum_values (paid (tally s'))
    ∧ status_var s'
      = DrawDone (length lines) (total_cost lines (strike_var s))
          (returns s' - spend s')
    ∧ labels s' = draw_labels (draw_number s + 1) d
    ∧ ticket_text s' = ticket_text s ∧ V s' = V s
    ∧ speed_var s' = speed_var s ∧ powerball_var s' = powerball_var s
    ∧ strike_var s' = strike_var s ∧ running s' = running s
    ∧ after_id s' = after_id s.
Proof.
  intros Hlaws Hwf Hne. cbv zeta.
  destruct (draw_of_balls rng (rng_calls s) _ eq_refl
              (shuffle_perm rng Hlaws _ _)) as (b & _ & Hd & Hlen & Hnd & Hr).
  unfold do_draw_once.
  pose proof (parsed_lines_long (ticket_text s)) as Hlong.
  destruct (parse_ticket_lines (ticket_text s)) as [|l ls] eqn:Hparse;
    [done|].
  eexists _, _. split; [exact Hd|]. split.
  { pose proof (randrange_bounds rng Hlaws (S (rng_calls s)) 1 11).
    split_and!; simpl; try done; lia. }
  rewrite Hd. cbn [mbind option_bind].
  rewrite score_lines_fold;
    [|done|simpl; lia|done].
  cbn [mbind option_bind fst snd].
  split; [reflexivity|]. cbn -[total_cost line_effect sum_values foldl].
  pose proof (total_cost_bounds (l :: ls) (strike_var s)) as Hb.
  cbn [length] in Hb.
  split_and!; try reflexivity; lia.
Qed.

Lemma draw_cycle_accounting_witness :
  RngLaws rng_first ∧ wf_tally (tally busy_state)
  ∧ parse_ticket_lines (ticket_text busy_state) ≠ []
  ∧ exists s', do_draw_once rng_first busy_state = Some s'
               ∧ draw_number s' = 2 ∧ spend s' = 170 + 170.
Proof.
  assert (wf_tally (tally busy_state)) as Hwf
    by (apply wf_tally_credit, wf_tally_init).
  assert (parse_ticket_lines (ticket_text busy_state) ≠ []) as Hne
    by (by vm_compute).
  split; [exact rng_first_laws|]. split; [exact Hwf|]. split; [exact Hne|].
  destruct (draw_cycle_accounting rng_first busy_state rng_first_laws Hwf Hne)
    as (d & s' & _ & _ & Hs' & Hn & _ & Hsp & _).
  exists s'. split; [exact Hs'|]. split; [exact Hn|].
  rewrite Hsp. reflexivity.
Defined.

(** What a draw cycle over a ticket with a valid line keeps and counts. *)
Lemma do_draw_once_counts rng s :
  RngLaws rng -> wf_tally (tally s) ->
  parse_ticket_lines (ticket_text s) ≠ [] ->
  exists s', do_draw_once rng s = Some s'
    ∧ wf_tally (tally s') ∧ ticket_text s' = ticket_text s
    ∧ draw_number s' = draw_number s + 1
    ∧ rng_calls s' = S (S (rng_calls s))
    ∧ running s' = running s ∧ speed_var s' = speed_var s.
Proof.
  intros Hlaws Hwf Hne. unfold do_draw_once.
  pose proof (parsed_lines_long (ticket_text s)) as Hlong.
  destruct (parse_ticket_lines (ticket_text s)) as [|l ls] eqn:Hparse;
    [done|].
  destruct (draw_of_balls rng (rng_calls s) _ eq_refl
              (shuffle_perm rng Hlaws _ _)) as (b & _ & -> & Hlen & _).
  cbn [mbind option_bind].
  rewrite score_lines_fold; [|done|simpl; lia|done].
  eexists. split; [reflexivity|]. cbn -[line_effect foldl].
  split_and!; try done. by apply wf_tally_fold.
Qed.

Lemma draw_cycles_counts rng n : forall s,
  RngLaws rng -> wf_tally (tally s) ->
  parse_ticket_lines (ticket_text s) ≠ [] ->
  exists s', draw_cycles rng n s = Some s'
    ∧ wf_tally (tally s') ∧ ticket_text s' = ticket_text s
    ∧ draw_number s' = draw_number s + Z.of_nat n
    ∧ rng_calls s' = (rng_calls s + 2 * n)%nat
    ∧ running s' = running s ∧ speed_var s' = speed_var s.
Proof.
  induction n as [|n IH]; intros s Hlaws Hwf Hne.
  { exists s. split_and!; try done; lia. }
  destruct (do_draw_once_counts rng s Hlaws Hwf Hne)
    as (s1 & Hs1 & Hwf1 & Htext1 & Hn1 & Hk1 & Hrun1 & Hsp1).
  destruct (IH s1 Hlaws Hwf1) as (s' & Hs' & Hwf' & Htext' & Hn' & Hk' & Hrun' & Hsp').
  { by rewrite Htext1. }
  exists s'. cbn [draw_cycles]. rewrite Hs1. cbn [mbind option_bind].
  split_and!; try done; try congruence; lia.
Qed.

(** X7. A tick of the timer does nothing when autorun is off.  When it is
    on and the ticket has a valid line, it runs one draw cycle at speeds up
    to 1000 and [speed // 1000] cycles above (the [max(1, ...)] around the
    quotient never takes effect), each cycle making its own draw, and then
    stores the new timer; speeds below 1 count as 1. *)
Theorem timer_tick_batches rng timer s :
  RngLaws rng -> wf_tally (tally s) ->
  parse_ticket_lines (ticket_text s) ≠ [] ->
  (running s = false -> schedule_next rng timer s = Some s)
  ∧ (running s = true ->
     exists s', schedule_next rng timer s = Some s'
       ∧ draw_number s' = draw_number s + cycles_per_tick (speed_var s)
       ∧ rng_calls s'
         = (rng_calls s + 2 * Z.to_nat (cycles_per_tick (speed_var s)))%nat
       ∧ after_id s' = Some timer ∧ running s' = true
       ∧ ticket_text s' = ticket_text s)
  ∧ 1 <= cycles_per_tick (speed_var s).
Proof.
  intros Hlaws Hwf Hne. unfold schedule_next, cycles_per_tick. split_and!.
  - by intros ->.
  - intros Hrun. rewrite Hrun. cbn [negb].
    destruct (Z.max 1 (speed_var s) <=? 1000) eqn:Hsp.
    + destruct (do_draw_once_counts rng s Hlaws Hwf Hne)
        as (s1 & -> & _ & Htext & Hn & Hk & Hrun1 & _).
      eexists. split; [reflexivity|]. simpl.
      split_and!; try done; try congruence; lia.
    + apply Z.leb_gt in Hsp.
      assert (1 <= Z.max 1 (speed_var s) / 1000) as Hq
        by (apply Z.div_le_lower_bound; lia).
      rewrite (Z.max_r 1 (Z.max 1 (speed_var s) / 1000)) by lia.
      destruct (draw_cycles_counts rng
                  (Z.to_nat (Z.max 1 (speed_var s) / 1000)) s Hlaws Hwf Hne)
        as (s1 & -> & _ & Htext & Hn & Hk & Hrun1 & _).
      eexists. split; [reflexivity|]. simpl.
      split_and!; try done; try congruence; lia.
  - destruct (Z.max 1 (speed_var s) <=? 1000) eqn:Hsp; [lia|].
    apply Z.leb_gt in Hsp. apply Z.div_le_lower_bound; lia.
Qed.

Lemma timer_tick_batches_witness :
  RngLaws rng_first ∧ wf_tally (tally busy_state)
  ∧ parse_ticket_lines (ticket_text busy_state) ≠ []
  ∧ running (with_controls 5000 true true busy_state) = true
  ∧ exists s',
      schedule_next rng_first 13 (with_controls 5000 true true busy_state)
      = Some s'
      ∧ draw_number s' = 1 + 5.
Proof.
  assert (wf_tally (tally busy_state)) as Hwf
    by (apply wf_tally_credit, wf_tally_init).
  assert (parse_ticket_lines (ticket_text busy_state) ≠ []) as Hne
    by (by vm_compute).
  split; [exact rng_first_laws|]. split; [exact Hwf|]. split; [exact Hne|].
  split; [reflexivity|].
  destruct (timer_tick_batches rng_first 13
              (with_controls 5000 true true busy_state)
              rng_first_laws Hwf Hne) as (_ & Hon & _).
  destruct (Hon eq_refl) as (s' & Hs' & Hn & _).
  exists s'. split; [exact Hs'|]. rewrite Hn. reflexivity.
Defined.

(** * The books of every reachable state *)

Lemma same_books_trans s1 s2 s3 :
  same_books s1 s2 -> same_books s2 s3 -> same_books s1 s3.
Proof.
  intros (H1 & H2 & H3 & H4 & H5) (H1' & H2' & H3' & H4' & H5').
  unfold same_books. by rewrite H1', H2', H3', H4', H5'.
Qed.

Lemma wheel_step_books rng s comb : same_books s (wheel_step rng s comb).
Proof. unfold wheel_step. by destruct (powerball_var s). Qed.

Lemma wheel_fold_books rng combs : forall s,
  same_books s (foldl (wheel_step rng) s combs).
Proof.
  induction combs as [|comb combs IH]; intros s; [done|].
  eapply same_books_trans; [apply (wheel_step_books rng s comb)|apply IH].
Qed.

Lemma set_status_books msg s s' :
  same_books s s' -> same_books s (set_status msg s').
Proof. by intros (? & ? & ? & ? & ?). Qed.

Lemma system_wheel_books rng m s s' :
  system_wheel rng m s = Some s' -> same_books s s'.
Proof.
  unfold system_wheel. case_bool_decide; [done|].
  destruct (wheel_base rng m s) as [base k]. intros [= <-].
  apply set_status_books.
  apply (wheel_fold_books rng (Py.combinations 6 base) (with_rng_calls k s)).
Qed.

Lemma qp10_books rng s : same_books s (qp10 rng s).
Proof.
  assert (forall n, same_books s (Nat.iter n (quick_pick rng) s)) as Hiter.
  { induction n as [|n IH]; [done|]. simpl.
    eapply same_books_trans; [exact IH|].
    apply (wheel_step_books rng (with_rng_calls _ _)). }
  unfold qp10. apply set_status_books, Hiter.
Qed.

Lemma set_base_numbers_books answer s :
  same_books s (set_base_numbers answer s).
Proof.
  unfold set_base_numbers. destruct answer as [[|c text]|]; try done.
  destruct (mapM _ _); [|done]. by destruct (merge_sort _ _).
Qed.

Lemma reachable_books_wf t sp ret n : reachable_books t sp ret n -> wf_tally t.
Proof.
  induction 1; [apply wf_tally_init|]. by apply wf_tally_fold.
Qed.

Lemma same_books_reachable s s' :
  same_books s s' ->
  reachable_books (tally s) (spend s) (returns s) (draw_number s) ->
  reachable_books (tally s') (spend s') (returns s') (draw_number s').
Proof. intros (-> & -> & -> & -> & _). done. Qed.

Lemma parsed_lines_six content :
  Forall (fun l => length (nums l) = 6%nat) (parse_ticket_lines content).
Proof. apply Forall_forall. intros line. apply parsed_line_length. Qed.

Lemma do_draw_once_books rng s s' :
  RngLaws rng ->
  reachable_books (tally s) (spend s) (returns s) (draw_number s) ->
  do_draw_once rng s = Some s' ->
  reachable_books (tally s') (spend s') (returns s') (draw_number s').
Proof.
  intros Hlaws Hreach. unfold do_draw_once.
  pose proof (parsed_lines_long (ticket_text s)) as Hlong.
  pose proof (parsed_lines_six (ticket_text s)) as Hsix.
  pose proof (reachable_books_wf _ _ _ _ Hreach) as Hwf.
  destruct (parse_ticket_lines (ticket_text s)) as [|l ls] eqn:Hparse.
  { by intros [= <-]. }
  destruct (draw_of_balls rng (rng_calls s) _ eq_refl
              (shuffle_perm rng Hlaws _ _))
    as (b & _ & -> & Hlen & Hnd & Hr).
  cbn [mbind option_bind].
  set (d := {| main6 := _; bonus := b; pb_draw := _ |}).
  assert (valid_draw d) as Hd.
  { pose proof (randrange_bounds rng Hlaws (S (rng_calls s)) 1 11).
    split_and!; simpl; try done; lia. }
  assert (4 <= length (main6 d))%nat as Hm by (simpl; lia).
  clearbody d.
  set (lines := l :: ls) in *.
  assert (lines ≠ []) as Hne by done. clearbody lines.
  rewrite score_lines_fold by done.
  cbn [mbind option_bind fst snd]. intros [= <-].
  cbn [tally spend returns draw_number].
  rewrite Z.add_0_l.
  by apply (books_cycle (tally s) (spend s) (returns s) (draw_number s)).
Qed.

Lemma draw_cycles_books rng n : forall s s',
  RngLaws rng ->
  reachable_books (tally s) (spend s) (returns s) (draw_number s) ->
  draw_cycles rng n s = Some s' ->
  reachable_books (tally s') (spend s') (returns s') (draw_number s').
Proof.
  induction n as [|n IH]; intros s s' Hlaws Hreach Hrun.
  { by injection Hrun as <-. }
  cbn [draw_cycles] in Hrun.
  destruct (do_draw_once rng s) as [s1|] eqn:Hs1; [|done].
  cbn [mbind option_bind] in Hrun.
  apply (IH s1 s' Hlaws); [|done].
  by apply (do_draw_once_books rng s).
Qed.

Lemma schedule_next_books rng timer s s' :
  RngLaws rng ->
  reachable_books (tally s) (spend s) (returns s) (draw_number s) ->
  schedule_next rng timer s = Some s' ->
  reachable_books (tally s') (spend s') (returns s') (draw_number s').
Proof.
  intros Hlaws Hreach. unfold schedule_next.
  destruct (running s); cbn [negb]; [|by intros [= <-]].
  destruct (Z.max 1 (speed_var s) <=? 1000).
  - destruct (do_draw_once rng s) as [s1|] eqn:Hs1; [|done].
    cbn [mbind option_bind]. intros [= <-].
    by apply (do_draw_once_books rng s s1).
  - destruct (draw_cycles rng _ s) as [s1|] eqn:Hs1; [|done].
    cbn [mbind option_bind]. intros [= <-].
    by apply (draw_cycles_books rng _ s s1) in Hs1.
Qed.

Lemma handle_books rng ev s s' :
  RngLaws rng ->
  reachable_books (tally s) (spend s) (returns s) (draw_number s) ->
  handle rng ev s = Some s' ->
  reachable_books (tally s') (spend s') (returns s') (draw_number s').
Proof.
  intros Hlaws Hreach Hs'.
  pose proof (reachable_books_wf _ _ _ _ Hreach) as Hwf.
  destruct ev; cbn [handle] in Hs'.
  - by apply (do_draw_once_books rng s).
  - injection Hs' as <-.
    apply (same_books_reachable s); [apply qp10_books|done].
  - unfold start_autorun in Hs'. destruct (running s).
    + by injection Hs' as <-.
    + by apply (schedule_next_books rng timer (with_running true s)).
  - by injection Hs' as <-.
  - injection Hs' as <-. rewrite (on_reset_init s Hwf). apply books_init.
  - apply (same_books_reachable s); [by apply (system_wheel_books rng m)|done].
  - injection Hs' as <-.
    apply (same_books_reachable s); [apply set_base_numbers_books|done].
  - by injection Hs' as <-.
  - by apply (schedule_next_books rng timer s).
  - by injection Hs' as <-.
  - by injection Hs' as <-.
Qed.

Lemma run_books rng evs : forall s s',
  RngLaws rng ->
  reachable_books (tally s) (spend s) (returns s) (draw_number s) ->
  run rng evs s = Some s' ->
  reachable_books (tally s') (spend s') (returns s') (draw_number s').
Proof.
  induction evs as [|ev evs IH]; intros s s' Hlaws Hreach Hrun.
  { by injection Hrun as <-. }
  cbn [run] in Hrun.
  destruct (handle rng ev s) as [s1|] eqn:Hs1; [|done].
  cbn [mbind option_bind] in Hrun.
  apply (IH s1 s' Hlaws); [|done].
  by apply (handle_books rng ev s).
Qed.

Lemma lotto_payout_order d :
  1 <= d <= 7 -> 0 <= lotto_payout d false <= lotto_payout d true.
Proof.
  intros Hd.
  assert (d = 1 ∨ d = 2 ∨ d = 3 ∨ d = 4 ∨ d = 5 ∨ d = 6 ∨ d = 7)
    as Hcases by lia.
  destruct_or!; subst d; by vm_compute.
Qed.

Lemma tally_consistent_init : tally_consistent init_vars.
Proof.
  split.
  - intros k Hk. exists 0.
    assert (k = 1 ∨ k = 2 ∨ k = 3 ∨ k = 4) as Hcases by lia.
    destruct_or!; subst k; by split_and!.
  - intros k Hk. exists 0, 0.
    assert (k = 1 ∨ k = 2 ∨ k = 3 ∨ k = 4 ∨ k = 5 ∨ k = 6 ∨ k = 7)
      as Hcases by lia.
    destruct_or!; subst k; by split_and!.
Qed.

Lemma tally_consistent_credit_S h t :
  1 <= h <= 4 -> tally_consistent t ->
  tally_consistent (credit (code_S h) (strike_payout h) t).
Proof.
  intros Hh [HS HD]. split.
  - intros k Hk. destruct (HS k Hk) as (n & Hn & Hst & Hpd).
    rewrite lookup_stats_credit, lookup_paid_credit, Hst, Hpd.
    destruct (decide (h = k)) as [->|Hne].
    + rewrite !bool_decide_eq_true_2 by done.
      exists (n + 1). split_and!; [lia|done|]. simpl. f_equal. lia.
    + rewrite !bool_decide_eq_false_2
        by (intros H; by apply code_S_inj in H).
      exists n. split_and!; [lia| |]; simpl; f_equal; lia.
  - intros k Hk. destruct (HD k Hk) as (n & p & Hn & Hst & Hpd & Hb).
    rewrite lookup_stats_credit, lookup_paid_credit, Hst, Hpd.
    rewrite !bool_decide_eq_false_2
      by (intros H; symmetry in H; by apply code_D_S in H).
    exists n, p. split_and!; try done; simpl; f_equal; lia.
Qed.

Lemma tally_consistent_credit_D d pm t :
  1 <= d <= 7 -> tally_consistent t ->
  tally_consistent (credit (code_D d) (lotto_payout d pm) t).
Proof.
  intros Hd [HS HD]. split.
  - intros k Hk. destruct (HS k Hk) as (n & Hn & Hst & Hpd).
    rewrite lookup_stats_credit, lookup_paid_credit, Hst, Hpd.
    rewrite !bool_decide_eq_false_2 by apply code_D_S.
    exists n. split_and!; [lia| |]; simpl; f_equal; lia.
  - intros k Hk. destruct (HD k Hk) as (n & p & Hn & Hst & Hpd & Hb).
    rewrite lookup_stats_credit, lookup_paid_credit, Hst, Hpd.
    destruct (decide (d = k)) as [->|Hne].
    + rewrite !bool_decide_eq_true_2 by done.
      pose proof (lotto_payout_order k Hk).
      exists (n + 1), (p + lotto_payout k pm).
      split_and!; [lia|done|done| |]; destruct pm; lia.
    + rewrite !bool_decide_eq_false_2
        by (intros H; by apply code_D_inj in H).
      exists n, p. split_and!; try done; simpl; try (f_equal; lia); lia.
Qed.

Lemma tally_consistent_line d strike t line :
  tally_consistent t -> tally_consistent (line_effect d strike t line).
Proof.
  intros Ht. unfold line_effect, strike_effect, main_effect.
  set (division := division_of _ _).
  assert (tally_consistent
            match division with
            | Some k => credit (code_D k)
                          (lotto_payout k (pb_matched line (pb_draw d))) t
            | None => t
            end) as Hmain.
  { destruct division as [k|] eqn:Hk; [|done].
    apply tally_consistent_credit_D; [|done].
    by apply division_of_range in Hk. }
  pose proof (positional_hits_range (nums line) (main6 d)).
  destruct (strike && (1 <=? positional_hits (nums line) (main6 d)))
    eqn:Hon; [|done].
  apply andb_true_iff in Hon as [_ Hon]. apply Z.leb_le in Hon.
  apply tally_consistent_credit_S; [lia|done].
Qed.

Lemma tally_consistent_fold d strike lines : forall t,
  tally_consistent t ->
  tally_consistent (foldl (line_effect d strike) t lines).
Proof.
  induction lines as [|line rest IH]; intros t Ht; [done|].
  simpl. by apply IH, tally_consistent_line.
Qed.

Lemma reachable_books_consistent t sp ret n :
  reachable_books t sp ret n -> tally_consistent t.
Proof.
  induction 1; [apply tally_consistent_init|].
  by apply tally_consistent_fold.
Qed.

(** X8. In every state the program reaches from start-up, whatever the
    events, the side-bet books balance exactly: the amount paid under [Sk]
    is the hit count of [Sk] times the payout of tier [k].  The amount paid
    under a division [Dk] lies between its hit count times the lower and
    times the higher payout of the division, and no hit count is
    negative. *)
Theorem paid_matches_hits rng evs s :
  RngLaws rng -> run rng evs init_state = Some s ->
  (forall k, 1 <= k <= 4 ->
     exists n, 0 <= n ∧ stats (tally s) !! code_S k = Some n
               ∧ paid (tally s) !! code_S k = Some (n * strike_payout k))
  ∧ (forall k, 1 <= k <= 7 ->
       exists n p, 0 <= n ∧ stats (tally s) !! code_D k = Some n
                   ∧ paid (tally s) !! code_D k = Some p
                   ∧ n * lotto_payout k false <= p
                     <= n * lotto_payout k true).
Proof.
  intros Hlaws Hrun.
  apply (reachable_books_consistent _ (spend s) (returns s) (draw_number s)).
  by apply (run_books rng evs init_state s Hlaws books_init).
Qed.

Lemma paid_matches_hits_witness :
  RngLaws rng_first
  ∧ exists s,
      run rng_first
        [EditTicket (lit "01 02 03 04 10 11"); SetControls 10 false true;
         PressDraw; PressDraw] init_state = Some s
      ∧ exists n, 0 <= n ∧ stats (tally s) !! code_S 4 = Some n
                  ∧ paid (tally s) !! code_S 4 = Some (n * strike_payout 4).
Proof.
  split; [exact rng_first_laws|].
  destruct (run rng_first
              [EditTicket (lit "01 02 03 04 10 11");
               SetControls 10 false true; PressDraw; PressDraw] init_state)
    as [s|] eqn:Hs; [|by vm_compute in Hs].
  exists s. split; [reflexivity|].
  exact (proj1 (paid_matches_hits rng_first _ s rng_first_laws Hs) 4
           ltac:(lia)).
Defined.

Lemma reachable_books_counts t sp ret n :
  reachable_books t sp ret n ->
  0 <= n ∧ 70 * n <= sp ∧ ret = sum_values (paid t) ∧ 0 <= ret.
Proof.
  induction 1 as [|t sp ret n d strike lines Hreach IH Hne Hsix Hd].
  { split_and!; try lia; reflexivity. }
  destruct IH as (Hn & Hsp & Hret & Hpos).
  pose proof (total_cost_bounds lines strike) as Hb.
  assert (1 <= Z.of_nat (length lines)) by (destruct lines; simpl; [done|lia]).
  assert (sum_values (paid t)
          <= sum_values (paid (foldl (line_effect d strike) t lines)))
    as Hmono.
  { pose proof (reachable_books_wf _ _ _ _ Hreach) as Hwf.
    clear -Hwf. revert t Hwf.
    induction lines as [|line rest IHl]; intros t Hwf; [simpl; lia|].
    cbn [foldl].
    destruct (effects_monotone strike
                (positional_hits (nums line) (main6 d))
                (division_of (count_main (nums line) (main6 d))
                   (bool_decide (bonus d ∈ nums line)))
                (pb_matched line (pb_draw d)) t Hwf)
      as (Hwf1 & _ & Hs1).
    { destruct (division_of _ _) as [k|] eqn:Hk; [|done]. simpl.
      by apply division_of_range in Hk. }
    { apply positional_hits_range. }
    specialize (IHl _ Hwf1). unfold line_effect at 2. lia. }
  split_and!; try done; lia.
Qed.

(** X9. In every state the program reaches, the draw counter is not
    negative, [spend] is at least 0.70 for every draw counted since the last
    reset (a draw is only counted when at least one line is charged), and
    [returns] is the sum of the paid amounts and not negative. *)
Theorem spend_covers_draws rng evs s :
  RngLaws rng -> run rng evs init_state = Some s ->
  0 <= draw_number s ∧ 70 * draw_number s <= spend s
  ∧ returns s = sum_values (paid (tally s)) ∧ 0 <= returns s.
Proof.
  intros Hlaws Hrun.
  apply (reachable_books_counts (tally s)).
  by apply (run_books rng evs init_state s Hlaws books_init).
Qed.

Lemma spend_covers_draws_witness :
  RngLaws rng_first
  ∧ exists s,
      run rng_first
        [EditTicket (lit "01 02 03 04 10 11"); PressDraw; PressDraw]
        init_state = Some s
      ∧ 70 * draw_number s <= spend s.
Proof.
  split; [exact rng_first_laws|].
  destruct (run rng_first
              [EditTicket (lit "01 02 03 04 10 11"); PressDraw; PressDraw]
              init_state)
    as [s|] eqn:Hs; [|by vm_compute in Hs].
  exists s. split; [reflexivity|].
  exact (proj1 (proj2 (spend_covers_draws rng_first _ s rng_first_laws Hs))).
Defined.

(** * The parser, line by line *)

Lemma rstrip_spaces s ws :
  Forall (fun c => Py.isspace c = true) ws ->
  Py.rstrip (s ++ ws) = Py.rstrip s.
Proof.
  intros Hws. unfold Py.rstrip. rewrite rev_app_distr.
  rewrite lstrip_spaces; [done|]. by apply Forall_rev.
Qed.

Lemma strip_spaces_l ws s :
  Forall (fun c => Py.isspace c = true) ws ->
  Py.strip (ws ++ s) = Py.strip s.
Proof. intros Hws. unfold Py.strip. by rewrite lstrip_spaces. Qed.

Lemma strip_spaces_r s ws :
  Forall (fun c => Py.isspace c = true) ws ->
  Py.strip (s ++ ws) = Py.strip s.
Proof.
  intros Hws. unfold Py.strip. induction s as [|c s IH].
  - rewrite app_nil_l. rewrite <- (app_nil_r ws) at 1.
    by rewrite lstrip_spaces.
  - cbn [app Py.lstrip]. destruct (Py.isspace c); [done|].
    by apply (rstrip_spaces (c :: s)).
Qed.

Lemma parse_line_spaces_l ws s :
  Forall (fun c => Py.isspace c = true) ws ->
  parse_line (ws ++ s) = parse_line s.
Proof. intros Hws. unfold parse_line. by rewrite strip_spaces_l. Qed.

Lemma parse_line_spaces_r s ws :
  Forall (fun c => Py.isspace c = true) ws ->
  parse_line (s ++ ws) = parse_line s.
Proof. intros Hws. unfold parse_line. by rewrite strip_spaces_r. Qed.

Lemma omap_last_line cur :
  omap parse_line (match cur with [] => [] | _ => [cur] end)
  = omap parse_line [cur].
Proof. by destruct cur. Qed.

Lemma omap_first_line cur rest :
  omap parse_line (cur :: rest)
  = omap parse_line [cur] ++ omap parse_line rest.
Proof. cbn [omap list_omap]. by destruct (parse_line cur). Qed.

Lemma linebreak_isspace c : Py.islinebreak c = true -> Py.isspace c = true.
Proof.
  destruct c as [[] [] [] [] [] [] [] []]; by vm_compute.
Qed.

(** A line feed right after a carriage return gives no line of its own;
    without the carriage return it gives an empty one, which the parser
    drops. *)
Lemma splitlines_skip_lf s :
  omap parse_line (Py.splitlines_go true [] s)
  = omap parse_line (Py.splitlines_go false [] s).
Proof.
  destruct s as [|c s]; [done|]. cbn [Py.splitlines_go andb].
  destruct (Ascii.eqb_spec c "010") as [->|Hc]; [|done].
  cbn [Py.islinebreak]. by rewrite omap_first_line.
Qed.

(** White space in front of the pending line makes no difference. *)
Lemma splitlines_spaces_l ws s : forall f cur,
  Forall (fun c => Py.isspace c = true) ws ->
  omap parse_line (Py.splitlines_go f (ws ++ cur) s)
  = omap parse_line (Py.splitlines_go f cur s).
Proof.
  induction s as [|c s IH]; intros f cur Hws.
  - cbn [Py.splitlines_go]. rewrite !omap_last_line.
    cbn [omap list_omap]. by rewrite parse_line_spaces_l.
  - cbn [Py.splitlines_go].
    destruct (f && Ascii.eqb c "010"); [by apply IH|].
    destruct (Py.islinebreak c).
    + rewrite !(omap_first_line _ (Py.splitlines_go _ _ _)).
      cbn [omap list_omap]. by rewrite parse_line_spaces_l.
    + rewrite <- app_assoc. by apply IH.
Qed.

(** A tail of white space gives no line of its own. *)
Lemma splitlines_spaces ws : forall f cur,
  Forall (fun c => Py.isspace c = true) ws ->
  omap parse_line (Py.splitlines_go f cur ws) = omap parse_line [cur].
Proof.
  induction ws as [|c ws IH]; intros f cur Hws.
  - cbn [Py.splitlines_go]. apply omap_last_line.
  - apply Forall_cons in Hws as [Hc Hws]. cbn [Py.splitlines_go].
    destruct (f && Ascii.eqb c "010"); [by apply IH|].
    destruct (Py.islinebreak c).
    + rewrite omap_first_line, IH by done. apply app_nil_r.
    + rewrite IH by done. cbn [omap list_omap].
      rewrite parse_line_spaces_r; [done|]. by repeat constructor.
Qed.

Lemma splitlines_spaces_r s ws : forall f cur,
  Forall (fun c => Py.isspace c = true) ws ->
  omap parse_line (Py.splitlines_go f cur (s ++ ws))
  = omap parse_line (Py.splitlines_go f cur s).
Proof.
  induction s as [|c s IH]; intros f cur Hws.
  - rewrite app_nil_l, splitlines_spaces by done.
    cbn [Py.splitlines_go]. by rewrite omap_last_line.
  - cbn [app Py.splitlines_go].
    destruct (f && Ascii.eqb c "010"); [by apply IH|].
    destruct (Py.islinebreak c).
    + rewrite !(omap_first_line _ (Py.splitlines_go _ _ _)).
      by rewrite IH.
    + by apply IH.
Qed.

Lemma strip_decompose s :
  exists ws1 ws2,
    s = ws1 ++ Py.strip s ++ ws2
    ∧ Forall (fun c => Py.isspace c = true) ws1
    ∧ Forall (fun c => Py.isspace c = true) ws2.
Proof.
  assert (forall s, exists ws,
            s = ws ++ Py.lstrip s ∧ Forall (fun c => Py.isspace c = true) ws)
    as Hl.
  { clear s. induction s as [|c s (ws & Hs & Hws)]; [by exists []|].
    cbn [Py.lstrip]. destruct (Py.isspace c) eqn:Hc.
    - exists (c :: ws). split; [by rewrite Hs at 1|by constructor].
    - by exists []. }
  destruct (Hl s) as (ws1 & Hs1 & Hws1).
  destruct (Hl (rev (Py.lstrip s))) as (ws2 & Hs2 & Hws2).
  exists ws1, (rev ws2). split_and!; [|done|by apply Forall_rev].
  unfold Py.strip, Py.rstrip.
  rewrite <- rev_app_distr, <- Hs2, rev_involutive. done.
Qed.

(** Stripping the whole text before splitting it into lines does not
    change what is parsed. *)
Lemma parse_stripped s :
  omap parse_line (Py.splitlines (Py.strip s))
  = omap parse_line (Py.splitlines s).
Proof.
  destruct (strip_decompose s) as (ws1 & ws2 & Hs & Hws1 & Hws2).
  rewrite Hs at 2. unfold Py.splitlines.
  rewrite app_assoc, splitlines_spaces_r by done.
  clear Hs Hws2. generalize (Py.strip s). intros body.
  induction Hws1 as [|c ws Hc Hws IH]; [done|].
  cbn [app Py.splitlines_go andb].
  destruct (Py.islinebreak c) eqn:Hbr.
  - rewrite omap_first_line. cbn [omap list_omap app].
    destruct (Ascii.eqb c "013"); [|done].
    by rewrite splitlines_skip_lf.
  - rewrite IH. symmetry.
    apply (splitlines_spaces_l [c] _ false []). by repeat constructor.
Qed.

Lemma splitlines_newline a b : forall f cur,
  (f = true -> cur = []) ->
  omap parse_line (Py.splitlines_go f cur (a ++ "010"%char :: b))
  = omap parse_line (Py.splitlines_go f cur a)
    ++ omap parse_line (Py.splitlines b).
Proof.
  induction a as [|c a IH]; intros f cur Hf.
  - cbn [app Py.splitlines_go]. rewrite omap_last_line.
    destruct f; cbn [andb Ascii.eqb Bool.eqb Py.islinebreak].
    + by rewrite (Hf eq_refl).
    + by rewrite omap_first_line.
  - cbn [app Py.splitlines_go].
    destruct (f && Ascii.eqb c "010"); [by apply IH|].
    destruct (Py.islinebreak c).
    + rewrite !(omap_first_line _ (Py.splitlines_go _ _ _)).
      rewrite IH by done. by rewrite app_assoc.
    + by apply IH.
Qed.

Lemma parse_ticket_lines_raw content :
  parse_ticket_lines content = omap parse_line (Py.splitlines content).
Proof.
  unfold parse_ticket_lines, text_get. rewrite parse_stripped.
  unfold Py.splitlines.
  rewrite (splitlines_newline content [] false []) by done.
  apply app_nil_r.
Qed.

Lemma parse_lines_app a b :
  parse_ticket_lines (a ++ "010"%char :: b)
  = parse_ticket_lines a ++ parse_ticket_lines b.
Proof.
  rewrite !parse_ticket_lines_raw. unfold Py.splitlines.
  by apply splitlines_newline.
Qed.

Lemma parse_lines_closed t :
  parse_ticket_lines (t ++ ["010"%char]) = parse_ticket_lines t.
Proof. rewrite parse_lines_app. apply app_nil_r. Qed.

(** X10. The parser reads a ticket line by line: the lines parsed from a
    text with a line feed in it are those parsed from the part before the
    line feed followed by those parsed from the part after it, so nothing
    on one line changes what another line gives. *)
Theorem parse_line_by_line a b :
  parse_ticket_lines (a ++ "010"%char :: b)
  = parse_ticket_lines a ++ parse_ticket_lines b.
Proof. apply parse_lines_app. Qed.

Lemma add_line_parsed ns p s :
  length ns = 6%nat -> Forall (fun n => 1 <= n <= 40) ns ->
  from_option (fun v => 1 <= v <= 10) True p ->
  closed_text (ticket_text s) ->
  parse_ticket_lines (ticket_text (add_ticket_line ns p s))
  = parse_ticket_lines (ticket_text s) ++ [{| nums := ns; pb := p |}]
  ∧ closed_text (ticket_text (add_ticket_line ns p s)).
Proof.
  intros Hlen Hall Hp Hend. unfold add_ticket_line.
  cbn [ticket_text with_ticket_text]. split.
  - destruct Hend as [->|[t ->]].
    + by rewrite app_nil_l, parse_emitted.
    + rewrite <- app_assoc. cbn [app].
      rewrite parse_lines_app, parse_emitted by done.
      by rewrite parse_lines_closed.
  - right. unfold ticket_line_text. destruct (strike_var s).
    + eexists. by rewrite !app_assoc.
    + eexists. by rewrite !app_assoc.
Qed.

(** X11. [add_ticket_line] appends: on a ticket that is empty or ends with
    a line feed -- as it does after every [add_ticket_line] -- the parsed
    lines after adding six numbers from 1 to 40, with a supplementary
    number from 1 to 10 or without, are the lines parsed before followed by
    the new line, whether the side-bet column is written or not.  The text
    again ends with a line feed. *)
Theorem add_ticket_line_appends ns p s :
  length ns = 6%nat -> Forall (fun n => 1 <= n <= 40) ns ->
  from_option (fun v => 1 <= v <= 10) True p ->
  closed_text (ticket_text s) ->
  parse_ticket_lines (ticket_text (add_ticket_line ns p s))
  = parse_ticket_lines (ticket_text s) ++ [{| nums := ns; pb := p |}]
  ∧ closed_text (ticket_text (add_ticket_line ns p s)).
Proof. apply add_line_parsed. Qed.

Lemma add_ticket_line_appends_witness :
  parse_ticket_lines
    (ticket_text
       (add_ticket_line [1; 2; 3; 4; 5; 6] (Some 7)
          (with_ticket_text (lit "03 11 14 22 33 36" ++ ["010"%char])
             init_state)))
  = [{| nums := [3; 11; 14; 22; 33; 36]; pb := None |};
     {| nums := [1; 2; 3; 4; 5; 6]; pb := Some 7 |}].
Proof.
  refine (proj1 (add_ticket_line_appends [1; 2; 3; 4; 5; 6] (Some 7)
                   (with_ticket_text
                      (lit "03 11 14 22 33 36" ++ ["010"%char]) init_state)
                   eq_refl _ _ _)).
  - repeat (apply Forall_cons; split; [lia|]). apply Forall_nil_2.
  - simpl. lia.
  - right. by exists (lit "03 11 14 22 33 36").
Defined.

(** * Combinations and the lines of a wheel *)

Lemma combinations_nil_r {A} k : Py.combinations (S k) (@nil A) = [].
Proof. done. Qed.

Lemma combinations_sublist {A} k : forall (l c : list A),
  c ∈ Py.combinations k l -> length c = k ∧ sublist c l.
Proof.
  induction k as [|k IHk]; intros l c Hc.
  - destruct l; apply list_elem_of_singleton in Hc as ->;
      (split; [done|apply sublist_nil_l]).
  - induction l as [|x l IHl]; [by apply elem_of_nil in Hc|].
    cbn [Py.combinations] in Hc. apply elem_of_app in Hc as [Hc|Hc].
    + apply list_elem_of_fmap in Hc as (c' & -> & Hc').
      destruct (IHk l c' Hc') as [Hlen Hsub].
      split; [by rewrite length_cons, Hlen|by apply sublist_skip].
    + destruct (IHl Hc) as [Hlen Hsub].
      split; [done|by apply sublist_cons].
Qed.

Lemma sublist_combination {A} : forall (l c : list A),
  sublist c l -> c ∈ Py.combinations (length c) l.
Proof.
  intros l c Hsub. induction Hsub as [|x c l Hsub IH|x c l Hsub IH].
  - by apply list_elem_of_singleton.
  - cbn [length Py.combinations]. apply elem_of_app. left.
    apply list_elem_of_fmap. by exists c.
  - destruct c as [|y c].
    + destruct l; by apply list_elem_of_singleton.
    + cbn [length Py.combinations]. apply elem_of_app. by right.
Qed.

Lemma combinations_count {A} k : forall (l : list A),
  length (Py.combinations k l) = choose (length l) k.
Proof.
  induction k as [|k IHk]; intros l; [by destruct l|].
  induction l as [|x l IHl]; [done|].
  cbn [Py.combinations length choose].
  by rewrite length_app, length_map, IHk, IHl.
Qed.

Lemma combinations_NoDup {A} k : forall (l : list A),
  NoDup l -> NoDup (Py.combinations k l).
Proof.
  induction k as [|k IHk]; intros l Hl.
  - destruct l; apply NoDup_singleton.
  - induction Hl as [|x l Hx Hl IHl]; [apply NoDup_nil_2|].
    cbn [Py.combinations]. apply NoDup_app. split_and!.
    + apply (NoDup_fmap_2 _). by apply IHk.
    + intros c Hc Hc'. apply list_elem_of_fmap in Hc as (c' & -> & _).
      apply combinations_sublist in Hc' as [_ Hsub].
      apply Hx. eapply elem_of_sublist; [|exact Hsub]. apply list_elem_of_here.
    + done.
Qed.

(** X12. [combinations(base, k)] lists exactly the selections of [k]
    elements of the base that keep the order of the base: every entry is
    such a selection, every such selection is an entry, there are
    "[n] choose [k]" entries for a base of [n], and over a base without
    repeats no selection is listed twice.  For the five wheels on offer
    that is 7, 28, 84, 210 and 462 lines. *)
Theorem combinations_selections (k : nat) (base : list Z) :
  (forall c, c ∈ Py.combinations k base <-> length c = k ∧ sublist c base)
  ∧ length (Py.combinations k base) = choose (length base) k
  ∧ (NoDup base -> NoDup (Py.combinations k base))
  ∧ (fun n => choose n 6) <$> [7; 8; 9; 10; 11]%nat
    = [7; 28; 84; 210; 462]%nat.
Proof.
  split_and!.
  - intros c. split; [apply combinations_sublist|].
    intros [<- Hsub]. by apply sublist_combination.
  - apply combinations_count.
  - apply combinations_NoDup.
  - by vm_compute.
Qed.

Lemma join_Forall (P : ascii -> Prop) sep parts :
  Forall P sep -> Forall (Forall P) parts -> Forall P (Py.join sep parts).
Proof.
  intros Hsep. induction 1 as [|p rest Hp Hrest IH]; [done|].
  destruct rest as [|q rest]; [done|].
  change (Forall P (p ++ sep ++ Py.join sep (q :: rest))).
  rewrite !Forall_app. by split_and!.
Qed.

Lemma z2_inline n :
  1 <= n <= 40 -> Forall (fun c => c ≠ "010"%char) (z2 n).
Proof.
  intros Hn. destruct (z2_number n Hn) as (Hw & _).
  destruct (word_facts _ Hw) as (Hbr & _).
  eapply Forall_impl; [exact Hbr|]. by intros c Hc ->.
Qed.

Lemma filter_none {A} (P : A -> Prop) `{!forall x, Decision (P x)} l :
  Forall (fun x => ¬ P x) l -> filter P l = [].
Proof.
  induction 1 as [|x l Hx _ IH]; [done|].
  by rewrite filter_cons_False.
Qed.

Lemma ticket_line_text_newlines ns p strike :
  Forall (fun n => 1 <= n <= 40) ns ->
  from_option (fun v => 1 <= v <= 10) True p ->
  filter (fun c => c = "010"%char) (ticket_line_text ns p strike)
  = ["010"%char].
Proof.
  intros Hns Hp.
  assert (forall l, Forall (fun n => 1 <= n <= 40) l ->
            Forall (fun c => c ≠ "010"%char)
              (Py.join (lit " ") (z2 <$> l))) as Hjoin.
  { intros l Hl. apply join_Forall; [by repeat constructor|].
    apply Forall_fmap. eapply Forall_impl; [exact Hl|].
    intros n Hn. by apply z2_inline. }
  assert (Forall (fun c => c ≠ "010"%char)
            match p with
            | Some v => lit " | PB " ++ z2 v
            | None => []
            end) as Hpb.
  { destruct p as [v|]; [|done]. simpl in Hp.
    apply Forall_app. split; [by repeat constructor|].
    apply z2_inline. lia. }
  unfold ticket_line_text. destruct strike.
  - rewrite !filter_app.
    rewrite (filter_none _ (Py.join _ (z2 <$> ns))) by (by apply Hjoin).
    rewrite (filter_none _ (match p with Some _ => _ | None => _ end))
      by done.
    rewrite (filter_none _ (Py.join _ (z2 <$> take 4 ns)))
      by (by apply Hjoin, Forall_take).
    done.
  - rewrite !filter_app.
    rewrite (filter_none _ (Py.join _ (z2 <$> ns))) by (by apply Hjoin).
    rewrite (filter_none _ (match p with Some _ => _ | None => _ end))
      by done.
    done.
Qed.

Lemma end_line_add ns p s :
  Forall (fun n => 1 <= n <= 40) ns ->
  from_option (fun v => 1 <= v <= 10) True p ->
  end_line (ticket_text (add_ticket_line ns p s))
  = end_line (ticket_text s) + 1.
Proof.
  intros Hns Hp. unfold add_ticket_line, end_line.
  cbn [ticket_text with_ticket_text].
  rewrite filter_app, length_app, ticket_line_text_newlines by done.
  simpl. lia.
Qed.

(** One round of the loop of a wheel or of the quick picks, on a line of
    six numbers from 1 to 40. *)
Lemma wheel_step_lines rng s comb :
  RngLaws rng -> length comb = 6%nat ->
  Forall (fun n => 1 <= n <= 40) comb ->
  closed_text (ticket_text s) ->
  exists p,
    pb_as_set (powerball_var s) p
    ∧ parse_ticket_lines (ticket_text (wheel_step rng s comb))
      = parse_ticket_lines (ticket_text s) ++ [{| nums := comb; pb := p |}]
    ∧ closed_text (ticket_text (wheel_step rng s comb))
    ∧ end_line (ticket_text (wheel_step rng s comb))
      = end_line (ticket_text s) + 1
    ∧ powerball_var (wheel_step rng s comb) = powerball_var s
    ∧ strike_var (wheel_step rng s comb) = strike_var s.
Proof.
  intros Hlaws Hlen Hall Hclosed. unfold wheel_step.
  destruct (powerball_var s) eqn:Hpb.
  - pose proof (randrange_bounds rng Hlaws (rng_calls s) 1 11 ltac:(lia))
      as Hr.
    set (v := randrange rng (rng_calls s) 1 11) in *.
    assert (from_option (fun v => 1 <= v <= 10) True (Some v)) as Hv
      by (simpl; lia).
    exists (Some v).
    destruct (add_line_parsed comb (Some v)
                (with_rng_calls (S (rng_calls s)) s) Hlen Hall Hv Hclosed)
      as [Hparse Hcl].
    split_and!; try done.
    + exists v. split; [done|lia].
    + exact (end_line_add comb (Some v)
               (with_rng_calls (S (rng_calls s)) s) Hall Hv).
  - exists None.
    destruct (add_line_parsed comb None s Hlen Hall I Hclosed)
      as [Hparse Hcl].
    split_and!; try done. by apply end_line_add.
Qed.

Lemma wheel_fold_lines rng combs : forall s,
  RngLaws rng ->
  Forall (fun c => length c = 6%nat ∧ Forall (fun n => 1 <= n <= 40) c)
    combs ->
  closed_text (ticket_text s) ->
  exists new,
    parse_ticket_lines (ticket_text (foldl (wheel_step rng) s combs))
    = parse_ticket_lines (ticket_text s) ++ new
    ∧ nums <$> new = combs
    ∧ Forall (fun l => pb_as_set (powerball_var s) (pb l)) new
    ∧ closed_text (ticket_text (foldl (wheel_step rng) s combs))
    ∧ end_line (ticket_text (foldl (wheel_step rng) s combs))
      = end_line (ticket_text s) + Z.of_nat (length combs).
Proof.
  induction combs as [|comb combs IH]; intros s Hlaws Hall Hclosed.
  { exists []. cbn [foldl length]. rewrite app_nil_r.
    split_and!; try done. lia. }
  apply Forall_cons in Hall as [[Hlen Hrange] Hall].
  destruct (wheel_step_lines rng s comb Hlaws Hlen Hrange Hclosed)
    as (p & Hp & Hparse & Hcl & Hend & Hpb & _).
  destruct (IH (wheel_step rng s comb) Hlaws Hall Hcl)
    as (new & Hparse' & Hnums & Hpbs & Hcl' & Hend').
  exists ({| nums := comb; pb := p |} :: new). cbn [foldl].
  split_and!.
  - rewrite Hparse', Hparse, <- app_assoc. done.
  - cbn [fmap list_fmap nums]. by rewrite <- Hnums.
  - apply Forall_cons. split; [done|]. by rewrite <- Hpb.
  - done.
  - rewrite Hend', Hend. cbn [length]. lia.
Qed.

Lemma valid_base_NoDup v : valid_base v -> NoDup v.
Proof.
  intros [Hs _]. induction Hs as [|x l _ IH Hx]; [apply NoDup_nil_2|].
  apply NoDup_cons. split; [|done].
  intros Hin. rewrite Forall_forall in Hx. specialize (Hx x Hin). lia.
Qed.

Lemma sorted_distinct (l : list Z) :
  NoDup l -> StronglySorted Z.le l -> StronglySorted Z.lt l.
Proof.
  intros Hnd Hs. induction Hs as [|x l _ IH Hx]; [constructor|].
  apply NoDup_cons in Hnd as [Hnot Hnd].
  constructor; [by apply IH|].
  apply Forall_forall. intros y Hy.
  rewrite Forall_forall in Hx. specialize (Hx y Hy).
  assert (x ≠ y) by (by intros ->). lia.
Qed.

Lemma valid_base_sorted (l : list Z) :
  NoDup l -> Forall (fun n => 1 <= n <= 40) l ->
  valid_base (merge_sort Z.le l).
Proof.
  intros Hnd Hall. split.
  - apply sorted_distinct.
    + by rewrite merge_sort_Permutation.
    + apply (StronglySorted_merge_sort Z.le).
  - by rewrite merge_sort_Permutation.
Qed.

Lemma wheel_base_valid rng m s :
  RngLaws rng -> (m <= 40)%nat ->
  (length (V s) = m -> valid_base (V s)) ->
  length (wheel_base rng m s).1 = m ∧ valid_base (wheel_base rng m s).1.
Proof.
  intros Hlaws Hm HV. unfold wheel_base. case_bool_decide as Hlen.
  - split; [done|by apply HV].
  - destruct seqZ_pool as (Hlen40 & Hnd & Hrange). cbn [fst]. split.
    + rewrite merge_sort_length.
      apply (sample_length rng Hlaws). by rewrite Hlen40.
    + apply valid_base_sorted; [by apply (sample_nodup rng Hlaws)|].
      apply Forall_forall. intros x Hx.
      apply (sample_sub rng Hlaws) in Hx.
      rewrite Forall_forall in Hrange. by apply Hrange.
Qed.

Lemma combinations_valid base :
  valid_base base ->
  Forall (fun c => length c = 6%nat ∧ NoDup c
                   ∧ Forall (fun n => 1 <= n <= 40) c)
    (Py.combinations 6 base).
Proof.
  intros Hbase. apply Forall_forall. intros c Hc.
  apply combinations_sublist in Hc as [Hlen Hsub]. split_and!.
  - done.
  - eapply sublist_NoDup; [|exact Hsub]. by apply valid_base_NoDup.
  - destruct Hbase as [_ Hall]. apply Forall_forall. intros x Hx.
    rewrite Forall_forall in Hall. apply Hall.
    by eapply elem_of_sublist.
Qed.

Lemma pb_as_set_range b p v : pb_as_set b p -> p = Some v -> 1 <= v <= 10.
Proof.
  destruct b; simpl; [|by intros ->].
  intros (w & -> & Hw) [= <-]. done.
Qed.

(** X13. A wheel over a ticket that is empty or ends with a line feed adds
    one line for every selection of six of the base, in the order of
    [combinations]: the lines parsed afterwards are those parsed before
    followed by the new ones.  The base has [m] numbers from 1 to 40 in
    ascending order without repeats -- the stored base numbers when there
    are [m] valid ones, a sorted sample otherwise -- so every new line is a
    valid line with its numbers ascending, there are "[m] choose 6" of
    them, each with a supplementary number from 1 to 10 when the Powerball
    toggle is on and none when it is off, and the status reports exactly
    that count. *)
Theorem system_wheel_lines rng m s :
  RngLaws rng -> (m <= 40)%nat ->
  (length (V s) = m -> valid_base (V s)) ->
  closed_text (ticket_text s) ->
  exists s' base new,
    system_wheel rng m s = Some s'
    ∧ length base = m ∧ valid_base base
    ∧ parse_ticket_lines (ticket_text s')
      = parse_ticket_lines (ticket_text s) ++ new
    ∧ nums <$> new = Py.combinations 6 base
    ∧ length new = choose m 6
    ∧ Forall valid_line new
    ∧ Forall (fun l => StronglySorted Z.lt (nums l)) new
    ∧ Forall (fun l => pb_as_set (powerball_var s) (pb l)) new
    ∧ status_var s' = WheelDone m base (Z.of_nat (choose m 6))
    ∧ closed_text (ticket_text s').
Proof.
  intros Hlaws Hm HV Hclosed. unfold system_wheel.
  rewrite (bool_decide_eq_false_2 (_ ∧ (40 < m)%nat)) by lia.
  destruct (wheel_base_valid rng m s Hlaws Hm HV) as [Hlen Hbase].
  destruct (wheel_base rng m s) as [base k]. cbn [fst] in Hlen, Hbase.
  pose proof (combinations_valid base Hbase) as Hcombs.
  destruct (wheel_fold_lines rng (Py.combinations 6 base)
              (with_rng_calls k s) Hlaws) as
    (new & Hparse & Hnums & Hpbs & Hcl & Hend).
  { eapply Forall_impl; [exact Hcombs|]. by intros c (? & _ & ?). }
  { done. }
  assert (length new = choose m 6) as Hcount.
  { rewrite <- (length_fmap nums), Hnums, combinations_count.
    by rewrite Hlen. }
  eexists _, base, new. split; [reflexivity|].
  split_and!; try done.
  - apply Forall_forall. intros l Hl.
    assert (nums l ∈ Py.combinations 6 base) as Hin
      by (rewrite <- Hnums; by apply list_elem_of_fmap_2).
    rewrite Forall_forall in Hcombs.
    destruct (Hcombs _ Hin) as (H6 & Hnd & Hrange).
    split_and!; try done. intros p Hp.
    rewrite Forall_forall in Hpbs.
    apply (pb_as_set_range (powerball_var s) (pb l)); [|done].
    by apply Hpbs.
  - apply Forall_forall. intros l Hl.
    assert (nums l ∈ Py.combinations 6 base) as Hin
      by (rewrite <- Hnums; by apply list_elem_of_fmap_2).
    apply combinations_sublist in Hin as [_ Hsub].
    destruct Hbase as [Hsorted _]. clear -Hsub Hsorted.
    induction Hsub as [|x c b Hsub IH|x c b Hsub IH].
    + constructor.
    + apply StronglySorted_inv in Hsorted as [Hs Hx].
      constructor; [by apply IH|].
      apply Forall_forall. intros y Hy. rewrite Forall_forall in Hx.
      apply Hx. by eapply elem_of_sublist.
    + apply StronglySorted_inv in Hsorted as [Hs _]. by apply IH.
  - cbn [status_var set_status]. f_equal.
    cbn [ticket_text with_rng_calls] in Hend. rewrite Hend.
    rewrite combinations_count, Hlen. lia.
Qed.

Lemma system_wheel_lines_witness :
  RngLaws rng_first
  ∧ exists s' new,
      system_wheel rng_first 7 init_state = Some s'
      ∧ parse_ticket_lines (ticket_text s') = new
      ∧ length new = 7%nat ∧ Forall valid_line new.
Proof.
  split; [exact rng_first_laws|].
  destruct (system_wheel_lines rng_first 7 init_state rng_first_laws
              ltac:(lia) ltac:(simpl; lia) ltac:(by left))
    as (s' & base & new & Hs' & _ & _ & Hparse & _ & Hcount & Hvalid & _).
  exists s', new. split; [exact Hs'|]. split; [exact Hparse|].
  split; [exact Hcount|exact Hvalid].
Defined.

Lemma wheel_step_calls rng s comb :
  rng_calls (wheel_step rng s comb)
  = if powerball_var s then S (rng_calls s) else rng_calls s.
Proof. unfold wheel_step. by destruct (powerball_var s). Qed.

Lemma strongly_sorted_sublist (c b : list Z) :
  sublist c b -> StronglySorted Z.lt b -> StronglySorted Z.lt c.
Proof.
  induction 1 as [|x c b Hsub IH|x c b Hsub IH]; intros Hsorted.
  - constructor.
  - apply StronglySorted_inv in Hsorted as [Hs Hx].
    constructor; [by apply IH|].
    apply Forall_forall. intros y Hy. rewrite Forall_forall in Hx.
    apply Hx. by eapply elem_of_sublist.
  - apply StronglySorted_inv in Hsorted as [Hs _]. by apply IH.
Qed.

(** The numbers of a quick pick. *)
Lemma quick_pick_numbers rng k :
  RngLaws rng ->
  let ns := merge_sort Z.le (sample rng k (seqZ 1 40) 6) in
  length ns = 6%nat ∧ valid_base ns.
Proof.
  intros Hlaws ns. destruct seqZ_pool as (Hlen40 & Hnd & Hrange). split.
  - unfold ns. rewrite merge_sort_length.
    apply (sample_length rng Hlaws). rewrite Hlen40. lia.
  - apply valid_base_sorted; [by apply (sample_nodup rng Hlaws)|].
    apply Forall_forall. intros x Hx.
    apply (sample_sub rng Hlaws) in Hx.
    rewrite Forall_forall in Hrange. by apply Hrange.
Qed.

Lemma quick_picks_lines rng s n :
  RngLaws rng -> closed_text (ticket_text s) ->
  exists new,
    parse_ticket_lines (ticket_text (Nat.iter n (quick_pick rng) s))
    = parse_ticket_lines (ticket_text s) ++ new
    ∧ length new = n
    ∧ Forall valid_line new
    ∧ Forall (fun l => StronglySorted Z.lt (nums l)) new
    ∧ Forall (fun l => pb_as_set (powerball_var s) (pb l)) new
    ∧ closed_text (ticket_text (Nat.iter n (quick_pick rng) s))
    ∧ powerball_var (Nat.iter n (quick_pick rng) s) = powerball_var s
    ∧ rng_calls (Nat.iter n (quick_pick rng) s)
      = (rng_calls s + n * (if powerball_var s then 2 else 1))%nat.
Proof.
  intros Hlaws Hclosed. induction n as [|n IH].
  { exists []. change (Nat.iter 0 (quick_pick rng) s) with s.
    rewrite app_nil_r.
    split_and!; first [done|lia]. }
  destruct IH as (new & Hparse & Hlen & Hvalid & Hsorted & Hpbs & Hcl
                  & Hpb & Hcalls).
  change (Nat.iter (S n) (quick_pick rng) s)
    with (quick_pick rng (Nat.iter n (quick_pick rng) s)).
  set (s1 := Nat.iter n (quick_pick rng) s) in *.
  clearbody s1. unfold quick_pick. cbv zeta.
  destruct (quick_pick_numbers rng (rng_calls s1) Hlaws) as [H6 Hbase].
  set (ns := merge_sort Z.le (sample rng (rng_calls s1) (seqZ 1 40) 6))
    in *.
  clearbody ns.
  destruct (wheel_step_lines rng (with_rng_calls (S (rng_calls s1)) s1) ns
              Hlaws H6 (proj2 Hbase) Hcl)
    as (p & Hp & Hparse1 & Hcl1 & _ & Hpb1 & _).
  change (powerball_var (with_rng_calls (S (rng_calls s1)) s1))
    with (powerball_var s1) in Hp, Hpb1.
  change (ticket_text (with_rng_calls (S (rng_calls s1)) s1))
    with (ticket_text s1) in Hparse1.
  rewrite Hpb in Hp, Hpb1.
  exists (new ++ [{| nums := ns; pb := p |}]). split_and!.
  - rewrite Hparse1, Hparse, <- app_assoc. done.
  - rewrite length_app, Hlen. simpl. lia.
  - apply Forall_app. split; [done|].
    apply Forall_singleton. split_and!; cbn [nums pb].
    + done.
    + by apply valid_base_NoDup.
    + apply Hbase.
    + intros v Hv. by eapply pb_as_set_range.
  - apply Forall_app. split; [done|].
    apply Forall_singleton. apply Hbase.
  - apply Forall_app. split; [done|]. by apply Forall_singleton.
  - done.
  - done.
  - rewrite wheel_step_calls.
    change (powerball_var (with_rng_calls (S (rng_calls s1)) s1))
      with (powerball_var s1).
    change (rng_calls (with_rng_calls (S (rng_calls s1)) s1))
      with (S (rng_calls s1)).
    rewrite Hpb, Hcalls.
    destruct (powerball_var s); lia.
Qed.

Lemma set_status_keeps msg s :
  ticket_text (set_status msg s) = ticket_text s
  ∧ rng_calls (set_status msg s) = rng_calls s
  ∧ status_var (set_status msg s) = msg.
Proof. done. Qed.

(** X14. [qp10] over a ticket that is empty or ends with a line feed adds
    exactly ten lines: the lines parsed afterwards are those parsed before
    followed by ten valid lines, each with six different numbers from 1 to
    40 in ascending order, and with a supplementary number from 1 to 10
    when the Powerball toggle is on and none when it is off.  It asks the
    random source twenty times with the toggle on and ten times with it
    off, and leaves the books alone. *)
Theorem qp10_lines rng s :
  RngLaws rng -> closed_text (ticket_text s) ->
  exists new,
    parse_ticket_lines (ticket_text (qp10 rng s))
    = parse_ticket_lines (ticket_text s) ++ new
    ∧ length new = 10%nat
    ∧ Forall valid_line new
    ∧ Forall (fun l => StronglySorted Z.lt (nums l)) new
    ∧ Forall (fun l => pb_as_set (powerball_var s) (pb l)) new
    ∧ rng_calls (qp10 rng s)
      = (rng_calls s + (if powerball_var s then 20 else 10))%nat
    ∧ status_var (qp10 rng s) = QuickPicksAdded
    ∧ same_books s (qp10 rng s).
Proof.
  intros Hlaws Hclosed.
  destruct (quick_picks_lines rng s 10 Hlaws Hclosed)
    as (new & Hparse & Hlen & Hvalid & Hsorted & Hpbs & _ & _ & Hcalls).
  destruct (set_status_keeps QuickPicksAdded
              (Nat.iter 10 (quick_pick rng) s)) as (Ht & Hk & Hst).
  exists new.
  split; [unfold qp10; rewrite Ht; exact Hparse|].
  split; [exact Hlen|]. split; [exact Hvalid|].
  split; [exact Hsorted|]. split; [exact Hpbs|].
  split; [|split; [unfold qp10; exact Hst|apply qp10_books]].
  unfold qp10. rewrite Hk, Hcalls. clear.
  destruct (powerball_var s); lia.
Qed.

Lemma qp10_lines_witness :
  RngLaws rng_first
  ∧ exists new,
      parse_ticket_lines (ticket_text (qp10 rng_first init_state)) = new
      ∧ length new = 10%nat ∧ Forall valid_line new.
Proof.
  split; [exact rng_first_laws|].
  destruct (qp10_lines rng_first init_state rng_first_laws
              ltac:(by left))
    as (new & Hparse & Hlen & Hvalid & _).
  exists new. split; [exact Hparse|]. split; [exact Hlen|exact Hvalid].
Defined.
